(** * shoutcast: the ICY stream demultiplexer of [stream.go]

    A shallow embedding of [Stream], [Open], [Read] and [Close].  Go's [int]
    is the 64-bit signed integer with wrap-around, a [[]byte] is a window
    (offset, length, capacity) on a backing array, and a run-time panic is an
    explicit outcome. *)

From Stdlib Require Import String Ascii.
From Stdlib Require Import Strings.Byte.
From Stdlib Require Import ZArith List Lia Bool.
Import ListNotations.
Open Scope Z_scope.

(** ** Go's [int] on a 64-bit platform *)

Module GoInt.

Definition min_int : Z := - 2 ^ 63.
Definition max_int : Z := 2 ^ 63 - 1.

(** two's complement wrap-around of an exact result *)
Definition wrap (z : Z) : Z := (z + 2 ^ 63) mod 2 ^ 64 - 2 ^ 63.

Definition add (a b : Z) : Z := wrap (a + b).
Definition sub (a b : Z) : Z := wrap (a - b).
Definition mul (a b : Z) : Z := wrap (a * b).

(** [fits z]: [z] is representable as an [int] *)
Definition fits (z : Z) : Prop := min_int <= z <= max_int.

End GoInt.

(** ** Slices of bytes

    A slice value is a window on a backing array; two slices cut from the same
    slice share that array, so [copy] between them is a move inside one
    array. *)

Module GoSlice.

Record slice : Set := mkSlice { off : Z; len : Z; cap : Z }.

(** [s[lo:hi]]: the bounds are checked against the capacity; [None] is the
    slice-bounds panic *)
Definition slice_expr (s : slice) (lo hi : Z) : option slice :=
  if (0 <=? lo) && (lo <=? hi) && (hi <=? cap s)
  then Some (mkSlice (off s + lo) (hi - lo) (cap s - lo))
  else None.

(** [s[lo:]]: the upper bound defaults to the length *)
Definition slice_from (s : slice) (lo : Z) : option slice :=
  if (0 <=? lo) && (lo <=? len s)
  then Some (mkSlice (off s + lo) (len s - lo) (cap s - lo))
  else None.

(** [s[i]]; [None] is the index panic *)
Definition index (mem : list byte) (s : slice) (i : Z) : option byte :=
  if (0 <=? i) && (i <? len s)
  then nth_error mem (Z.to_nat (off s + i))
  else None.

(** the elements a slice shows *)
Definition elems (mem : list byte) (s : slice) : list byte :=
  firstn (Z.to_nat (len s)) (skipn (Z.to_nat (off s)) mem).

(** [copy(dst, src)] on one backing array: [min(len(dst), len(src))] elements
    move, overlapping or not, and that count is returned *)
Definition copy (mem : list byte) (dst src : slice) : list byte * Z :=
  let k := Z.min (len dst) (len src) in
  (firstn (Z.to_nat (off dst)) mem
     ++ firstn (Z.to_nat k) (skipn (Z.to_nat (off src)) mem)
     ++ skipn (Z.to_nat (off dst + k)) mem,
   k).

End GoSlice.

Import GoSlice.

(** ** Errors and panics *)

Inductive NumError : Set := ErrSyntax | ErrRange.

Inductive goerror : Set :=
| EOF
| ErrIO (msg : string)
| ErrAtoi (input : string) (e : NumError)
| Errorf (prefix : string) (inner : goerror).

(** Go's [error]: [None] is [nil] *)
Definition error : Set := option goerror.

Inductive panic : Set :=
| SliceBoundsOutOfRange
| IndexOutOfRange
| NilDereference.

(** ** The caller's buffer and the underlying source *)

(** The argument [p] of [Read]: the backing array as far as [p] can reach
    ([cap(p)] elements) and [len(p)]. *)
Record Buffer : Set := mkBuffer { arr : list byte; blen : Z }.

Definition buf_cap (p : Buffer) : Z := Z.of_nat (length (arr p)).

Definition buf_slice (p : Buffer) : slice := mkSlice 0 (blen p) (buf_cap p).

Definition buf_ok (p : Buffer) : Prop :=
  0 <= blen p <= buf_cap p /\ buf_cap p <= GoInt.max_int.

(** What one [Read] of an [io.Reader] hands back: the bytes it stored at the
    front of [p], the count [n] and the error. *)
Record SourceRead : Set := mkSourceRead
  { sr_data : list byte; sr_n : Z; sr_err : error }.

(** [io.ReadCloser] *)
Class ReadCloser (R : Type) : Type :=
  { rc_Read : R -> Buffer -> SourceRead * R;
    rc_Close : R -> error * R }.

(** The source writes through [p], so never past [len(p)]; the array keeps
    its size. *)
Definition store (p : Buffer) (data : list byte) : list byte :=
  let d := firstn (Z.to_nat (blen p)) data in
  firstn (length (arr p)) (d ++ skipn (length d) (arr p)).

(** the [io.Reader] contract on the count: [0 <= n <= len(p)] *)
Definition reader_contract (p : Buffer) (r : SourceRead) : Prop :=
  0 <= sr_n r <= blen p.

Definition byte_to_int (b : byte) : Z := Z.of_N (Byte.to_N b).

(** ** The stream *)

(** [Stream], field by field.  [MetadataCallbackFunc] is [true] when a
    function is installed; what the function does is outside the program, so
    each of its invocations is recorded, with its argument, in the trace of
    the call that made it. *)
Record Stream (R M : Type) : Type := mkStream
  { Name : string;
    Genre : string;
    Description : string;
    URL : string;
    Bitrate : Z;
    MetadataCallbackFunc : bool;
    metaint : Z;
    metadata : option M;
    pos : Z;
    rc : R }.

Arguments mkStream {R M}.
Arguments Name {R M}.
Arguments Genre {R M}.
Arguments Description {R M}.
Arguments URL {R M}.
Arguments Bitrate {R M}.
Arguments MetadataCallbackFunc {R M}.
Arguments metaint {R M}.
Arguments metadata {R M}.
Arguments pos {R M}.
Arguments rc {R M}.

Definition set_pos {R M} (s : Stream R M) (v : Z) : Stream R M :=
  mkStream (Name s) (Genre s) (Description s) (URL s) (Bitrate s)
           (MetadataCallbackFunc s) (metaint s) (metadata s) v (rc s).

Definition set_metadata {R M} (s : Stream R M) (m : option M) : Stream R M :=
  mkStream (Name s) (Genre s) (Description s) (URL s) (Bitrate s)
           (MetadataCallbackFunc s) (metaint s) m (pos s) (rc s).

Definition set_rc {R M} (s : Stream R M) (r : R) : Stream R M :=
  mkStream (Name s) (Genre s) (Description s) (URL s) (Bitrate s)
           (MetadataCallbackFunc s) (metaint s) (metadata s) (pos s) r.

Definition set_callback {R M} (s : Stream R M) (f : bool) : Stream R M :=
  mkStream (Name s) (Genre s) (Description s) (URL s) (Bitrate s)
           f (metaint s) (metadata s) (pos s) (rc s).

(** How a call ends. *)
Inductive result : Set :=
| Returned (n : Z) (err : error)
| Panicked (why : panic).

(** Everything a call of [Read] leaves behind: the stream, the caller's
    array, the callback invocations it made, and how it ended.  A panic keeps
    the writes made before it. *)
Record ReadOut (R M : Type) : Type := mkOut
  { out_stream : Stream R M;
    out_arr : list byte;
    out_calls : list M;
    out_res : result }.

Arguments mkOut {R M}.
Arguments out_stream {R M}.
Arguments out_arr {R M}.
Arguments out_calls {R M}.
Arguments out_res {R M}.

(** The [Metadata] type of the package is declared outside [stream.go]; [Read]
    only uses its constructor and its comparison with the (possibly nil)
    previous snapshot. *)
Class MetadataType (M : Type) : Type :=
  { NewMetadata : list byte -> M;
    Equals : M -> option M -> bool }.

Section Demuxer.

Context {R M : Type} `{ReadCloser R} `{MetadataType M}.

(** Lines 110-118: the block is decoded when [metadataLength > 0]. *)
Definition extract (s : Stream R M) (p : Buffer) (mem : list byte)
           (metadataStart metadataLength : Z) : option (Stream R M * list M) :=
  if 0 <? metadataLength then
    match slice_expr (buf_slice p) (GoInt.add metadataStart 1)
            (GoInt.add (GoInt.add metadataStart 1) metadataLength) with
    | None => None
    | Some blk =>
        let m := NewMetadata (elems mem blk) in
        if negb (Equals m (metadata s)) then
          Some (set_metadata s (Some m),
                if MetadataCallbackFunc s then [m] else [])
        else Some (s, [])
    end
  else Some (s, []).

(** Lines 110-127: what [Read] does once the length byte is decoded. *)
Definition strip_block (s : Stream R M) (p : Buffer) (mem : list byte)
           (n : Z) (err : error) (metadataStart metadataLength : Z)
  : ReadOut R M :=
  match extract s p mem metadataStart metadataLength with
  | None => mkOut s mem [] (Panicked SliceBoundsOutOfRange)
  | Some (s1, calls) =>
      let s2 :=
        set_pos s1
          (GoInt.sub
             (GoInt.sub (GoInt.sub (GoInt.add (pos s1) n) (metaint s1))
                        metadataLength) 1) in
      match slice_from (buf_slice p) metadataStart,
            slice_from (buf_slice p)
              (GoInt.add (GoInt.add metadataStart 1) metadataLength) with
      | Some dst, Some src =>
          mkOut s2 (fst (copy mem dst src)) calls
                (Returned (GoInt.sub (GoInt.sub n 1) metadataLength) err)
      | _, _ => mkOut s2 mem calls (Panicked SliceBoundsOutOfRange)
      end
  end.

(** [func (s *Stream) Read(p []byte) (n int, err error)] *)
Definition Read (s : Stream R M) (p : Buffer) : ReadOut R M :=
  let (r, rc') := rc_Read (rc s) p in
  let mem := store p (sr_data r) in
  let n := sr_n r in
  let err := sr_err r in
  let s := set_rc s rc' in
  if GoInt.add (pos s) n <=? metaint s then
    mkOut (set_pos s (GoInt.add (pos s) n)) mem [] (Returned n err)
  else
    let metadataStart := GoInt.sub (metaint s) (pos s) in
    match slice_expr (buf_slice p) metadataStart (GoInt.add metadataStart 1) with
    | None => mkOut s mem [] (Panicked SliceBoundsOutOfRange)
    | Some lenbyte =>
        match index mem lenbyte 0 with
        | None => mkOut s mem [] (Panicked IndexOutOfRange)
        | Some b =>
            strip_block s p mem n err metadataStart
                        (GoInt.mul (byte_to_int b) 16)
        end
    end.

(** [func (s *Stream) Close() error] *)
Definition Close (s : Stream R M) : error * Stream R M :=
  let (e, rc') := rc_Close (rc s) in (e, set_rc s rc').

(** *** Vocabulary for the statements *)

(** what line 100 gets from the source, and the array right after it *)
Definition source_read (s : Stream R M) (p : Buffer) : SourceRead :=
  fst (rc_Read (rc s) p).

Definition after_source (s : Stream R M) (p : Buffer) : list byte :=
  store p (sr_data (source_read s p)).

(** the integer fields hold Go [int]s *)
Definition ints_ok (s : Stream R M) : Prop :=
  GoInt.fits (pos s) /\ GoInt.fits (metaint s).

(** A call in which line 102 finds a boundary inside the bytes read, at
    offset [metaint - pos >= 0], whose length byte is [b]. *)
Definition boundary_at (s : Stream R M) (p : Buffer) (b : byte) : Prop :=
  ints_ok s /\ buf_ok p /\ reader_contract p (source_read s p) /\
  0 <= metaint s - pos s /\
  metaint s < GoInt.add (pos s) (sr_n (source_read s p)) /\
  nth_error (after_source s p) (Z.to_nat (metaint s - pos s)) = Some b.

(** A call that decodes a block of [blockLen > 0] bytes into the snapshot
    [m]: the block lies inside the capacity of [p]. *)
Definition decodes (s : Stream R M) (p : Buffer) (m : M) : Prop :=
  exists b,
    boundary_at s p b /\
    0 < byte_to_int b * 16 /\
    metaint s - pos s + 1 + byte_to_int b * 16 <= buf_cap p /\
    m = NewMetadata
          (firstn (Z.to_nat (byte_to_int b * 16))
             (skipn (Z.to_nat (metaint s - pos s + 1)) (after_source s p))).

(** what a caller can do with an open stream: read, close, and install or
    remove the callback *)
Inductive op : Set :=
| OpRead (p : Buffer)
| OpClose
| OpSetCallback (f : bool).

Definition apply_op (s : Stream R M) (o : op) : Stream R M :=
  match o with
  | OpRead p => out_stream (Read s p)
  | OpClose => snd (Close s)
  | OpSetCallback f => set_callback s f
  end.

Definition run (ops : list op) (s : Stream R M) : Stream R M :=
  fold_left apply_op ops s.

(** the same calls made on the source itself *)
Definition source_after (ops : list op) (r : R) : R :=
  fold_left
    (fun r o =>
       match o with
       | OpRead p => snd (rc_Read r p)
       | OpClose => snd (rc_Close r)
       | OpSetCallback _ => r
       end)
    ops r.

(** the bytes the source delivered in this call, [p[:n]] after line 100 *)
Definition delivered (s : Stream R M) (p : Buffer) : list byte :=
  firstn (Z.to_nat (sr_n (source_read s p))) (after_source s p).

(** the bytes a caller takes from a call that returned [n]: [p[:n]] *)
Definition returned_bytes (o : ReadOut R M) : list byte :=
  match out_res o with
  | Returned n _ => firstn (Z.to_nat n) (out_arr o)
  | Panicked _ => []
  end.

(** A call whose chunk holds no boundary, or one boundary with its whole
    block and at most [metaint] audio bytes after it. *)
Definition one_block_at_most (s : Stream R M) (p : Buffer) : Prop :=
  buf_ok p /\ reader_contract p (source_read s p) /\
  (pos s + sr_n (source_read s p) <= metaint s \/
   exists b,
     metaint s < GoInt.add (pos s) (sr_n (source_read s p)) /\
     nth_error (after_source s p) (Z.to_nat (metaint s - pos s)) = Some b /\
     0 <= sr_n (source_read s p)
          - (metaint s - pos s + 1 + byte_to_int b * 16) <= metaint s).

(** successive calls, each on the stream the call before left *)
Fixpoint audio_of (s : Stream R M) (ps : list Buffer) : list byte :=
  match ps with
  | [] => []
  | p :: ps' =>
      returned_bytes (Read s p) ++ audio_of (out_stream (Read s p)) ps'
  end.

Fixpoint wire_of (s : Stream R M) (ps : list Buffer) : list byte :=
  match ps with
  | [] => []
  | p :: ps' => delivered s p ++ wire_of (out_stream (Read s p)) ps'
  end.

Fixpoint each_one_block_at_most (s : Stream R M) (ps : list Buffer) : Prop :=
  match ps with
  | [] => True
  | p :: ps' =>
      one_block_at_most s p
      /\ each_one_block_at_most (out_stream (Read s p)) ps'
  end.

End Demuxer.

(** ** The wire format, byte by byte

    Reference demultiplexer, after section 6 of the specification: the body
    repeats [metaint] audio bytes, one length byte, and sixteen times that
    many bytes of metadata text.  [InAudio k]: [k] audio bytes seen since the
    last block; [InBlock r]: [r] bytes of the block still to come. *)
Inductive phase : Set :=
| InAudio (k : Z)
| InBlock (r : Z).

Definition wire_step (mi : Z) (ph : phase) (b : byte) : list byte * phase :=
  match ph with
  | InAudio k =>
      if k <? mi then ([b], InAudio (k + 1))
      else ([], if byte_to_int b =? 0 then InAudio 0
                else InBlock (byte_to_int b * 16))
  | InBlock r => ([], if r <=? 1 then InAudio 0 else InBlock (r - 1))
  end.

Fixpoint wire_demux (mi : Z) (ph : phase) (wire : list byte)
  : list byte * phase :=
  match wire with
  | [] => ([], ph)
  | b :: w =>
      let (o, ph1) := wire_step mi ph b in
      let (o', ph2) := wire_demux mi ph1 w in
      (o ++ o', ph2)
  end.

(** ** [strconv.Atoi] *)

Definition max_uint64 : Z := 2 ^ 64 - 1.

Definition digit (c : ascii) : option Z :=
  let v := Z.of_N (N_of_ascii c) in
  if (48 <=? v) && (v <=? 57) then Some (v - 48) else None.

(** The digit loop of [ParseUint] in base 10: the first character that is no
    digit is a syntax error, the first step past [uint64] a range error. *)
Fixpoint parse_uint (cs : list ascii) (n : Z) : Z + NumError :=
  match cs with
  | [] => inl n
  | c :: cs' =>
      match digit c with
      | None => inr ErrSyntax
      | Some d =>
          let n1 := 10 * n + d in
          if max_uint64 <? n1 then inr ErrRange else parse_uint cs' n1
      end
  end.

(** an optional sign in front of the digits *)
Definition split_sign (cs : list ascii) : bool * list ascii :=
  match cs with
  | c :: t =>
      if Ascii.eqb c "-" then (true, t)
      else if Ascii.eqb c "+" then (false, t)
      else (false, cs)
  | [] => (false, [])
  end.

Definition Atoi (s : string) : Z + goerror :=
  let (neg, ds) := split_sign (list_ascii_of_string s) in
  match ds with
  | [] => inr (ErrAtoi s ErrSyntax)
  | _ :: _ =>
      match parse_uint ds 0 with
      | inr e => inr (ErrAtoi s e)
      | inl un =>
          if neg then
            if 2 ^ 63 <? un then inr (ErrAtoi s ErrRange) else inl (- un)
          else
            if 2 ^ 63 <=? un then inr (ErrAtoi s ErrRange) else inl un
      end
  end.

(** a decimal numeral: an optional sign and at least one digit, nothing else *)
Definition numeric (s : string) : bool :=
  let ds := snd (split_sign (list_ascii_of_string s)) in
  negb (Nat.eqb (length ds) 0)
  && forallb (fun c => match digit c with Some _ => true | None => false end) ds.

(** the number a run of decimal digits writes, continuing from [n] *)
Definition decimal_value (ds : list ascii) (n : Z) : Z :=
  fold_left
    (fun a c => 10 * a + match digit c with Some d => d | None => 0 end)
    ds n.

(** the integer a decimal numeral writes *)
Definition numeral_value (s : string) : Z :=
  let (neg, ds) := split_sign (list_ascii_of_string s) in
  if neg then - decimal_value ds 0 else decimal_value ds 0.

(** ** [http.Header] *)

Definition Header : Set := list (string * list string).

Definition is_lower (c : ascii) : bool :=
  let v := N_of_ascii c in ((97 <=? v) && (v <=? 122))%N.

Definition is_upper (c : ascii) : bool :=
  let v := N_of_ascii c in ((65 <=? v) && (v <=? 90))%N.

Definition is_digit (c : ascii) : bool :=
  let v := N_of_ascii c in ((48 <=? v) && (v <=? 57))%N.

(** the bytes of an HTTP token *)
Definition validHeaderFieldByte (c : ascii) : bool :=
  is_lower c || is_upper c || is_digit c
  || existsb (Ascii.eqb c)
       (list_ascii_of_string "!#$%&'*+-.^_`|~").

Fixpoint canonical_case (upper : bool) (s : string) : string :=
  match s with
  | EmptyString => EmptyString
  | String c s' =>
      let c' :=
        if upper && is_lower c then ascii_of_N (N_of_ascii c - 32)
        else if negb upper && is_upper c then ascii_of_N (N_of_ascii c + 32)
        else c in
      String c' (canonical_case (Ascii.eqb c' "-") s')
  end.

(** [textproto.CanonicalMIMEHeaderKey] *)
Definition CanonicalHeaderKey (s : string) : string :=
  if forallb validHeaderFieldByte (list_ascii_of_string s)
  then canonical_case true s else s.

Fixpoint header_lookup (h : Header) (k : string) : option (list string) :=
  match h with
  | [] => None
  | (k', vs) :: h' => if String.eqb k' k then Some vs else header_lookup h' k
  end.

(** [h.Get(key)]: the first value under the canonical key, or the empty
    string *)
Definition Header_Get (h : Header) (key : string) : string :=
  match header_lookup h (CanonicalHeaderKey key) with
  | Some (v :: _) => v
  | _ => EmptyString
  end.

Fixpoint header_append (h : Header) (k v : string) : Header :=
  match h with
  | [] => [(k, [v])]
  | (k', vs) :: h' =>
      if String.eqb k' k then (k', vs ++ [v]) :: h'
      else (k', vs) :: header_append h' k v
  end.

(** [h.Add(key, value)] *)
Definition Header_Add (h : Header) (key v : string) : Header :=
  header_append h (CanonicalHeaderKey key) v.

(** a header is absent when no value is stored under its canonical key *)
Definition header_absent (h : Header) (key : string) : Prop :=
  header_lookup h (CanonicalHeaderKey key) = None.

(** ** [Open] *)

Record Request : Set := mkRequest
  { req_Method : string; req_URL : string; req_Header : Header }.

Record Response (R : Type) : Type := mkResponse
  { resp_Header : Header; Body : R }.

Arguments mkResponse {R}.
Arguments resp_Header {R}.
Arguments Body {R}.

(** What [net/http] does for [Open]: [http.NewRequest] gives a request or,
    with a nil request, an error; [client.Do], on the client with the
    five-second dial timeout, gives a response or an error. *)
Record Net (R : Type) : Type := mkNet
  { http_NewRequest : string -> string -> Request + goerror;
    client_Do : Request -> Response R + goerror }.

Arguments mkNet {R}.
Arguments http_NewRequest {R}.
Arguments client_Do {R}.

Inductive OpenResult (R M : Type) : Type :=
| Opened (s : Stream R M)
| OpenFailed (err : goerror)
| OpenPanicked (why : panic).

Arguments Opened {R M}.
Arguments OpenFailed {R M}.
Arguments OpenPanicked {R M}.

Definition req_add (req : Request) (key v : string) : Request :=
  mkRequest (req_Method req) (req_URL req) (Header_Add (req_Header req) key v).

(** lines 54-56 *)
Definition icy_request (req : Request) : Request :=
  let req := req_add req "accept" "*/*" in
  let req :=
    req_add req "user-agent"
      "iTunes/12.9.2 (Macintosh; OS X 10.14.3) AppleWebKit/606.4.5" in
  req_add req "icy-metadata" "1".

(** the logging loop of lines 69-71 reads [v[0]] of every header *)
Definition some_header_without_value (h : Header) : bool :=
  existsb (fun kv => match snd kv with [] => true | _ :: _ => false end) h.

(** [func Open(url string)], returning a [Stream] pointer and an error.
    The error of
    [http.NewRequest] is dropped (it is overwritten at [client.Do]) and the
    request is used at once. *)
Definition Open {R M : Type} (net : Net R) (url : string) : OpenResult R M :=
  match http_NewRequest net "GET" url with
  | inr _ => OpenPanicked NilDereference
  | inl req =>
      match client_Do net (icy_request req) with
      | inr err => OpenFailed err
      | inl resp =>
          if some_header_without_value (resp_Header resp)
          then OpenPanicked IndexOutOfRange
          else
            match Atoi (Header_Get (resp_Header resp) "icy-br") with
            | inr err => OpenFailed (Errorf "cannot parse bitrate: " err)
            | inl bitrate =>
                match Atoi (Header_Get (resp_Header resp) "icy-metaint") with
                | inr err => OpenFailed (Errorf "cannot parse metaint: " err)
                | inl metaint =>
                    Opened
                      (mkStream
                         (Header_Get (resp_Header resp) "icy-name")
                         (Header_Get (resp_Header resp) "icy-genre")
                         (Header_Get (resp_Header resp) "icy-description")
                         (Header_Get (resp_Header resp) "icy-url")
                         bitrate false metaint None 0 (Body resp))
                end
            end
      end
  end.

(** ** A concrete source and a concrete metadata type *)

(** A response body whose bytes arrive in chunks: a read hands over what fits
    of the chunk at the front and keeps the rest; after the last chunk the
    body reports end of stream. *)
Definition Chunks : Set := list (list byte).

Definition chunks_Read (c : Chunks) (p : Buffer) : SourceRead * Chunks :=
  match c with
  | [] => (mkSourceRead [] 0 (Some EOF), [])
  | ch :: rest =>
      let k := Z.to_nat (blen p) in
      let d := firstn k ch in
      (mkSourceRead d (Z.of_nat (length d)) None,
       match skipn k ch with [] => rest | r => r :: rest end)
  end.

#[export] Instance Chunks_ReadCloser : ReadCloser Chunks :=
  { rc_Read := chunks_Read;
    rc_Close := fun c => (None, []) }.

(** Modelled from the spec: the Metadata value type lives outside
    [stream.go].  Section 4.2 gives its contract: the block is text made of
    semicolon-terminated [key='value'] segments, right-padded with null bytes;
    the snapshot maps each key to its value, and two snapshots are equal when
    their mappings are. *)
Definition Meta : Set := list (string * string).

Fixpoint strip_padding (bs : list byte) : list byte :=
  match bs with
  | [] => []
  | b :: t =>
      match strip_padding t with
      | [] => if Byte.eqb b x00 then [] else [b]
      | t' => b :: t'
      end
  end.

(** cut a text at every [sep]; the piece after the last [sep] is kept *)
Fixpoint split_on (sep : ascii) (cs : list ascii) : list (list ascii) :=
  match cs with
  | [] => [[]]
  | c :: t =>
      match split_on sep t with
      | [] => [[]]
      | seg :: segs =>
          if Ascii.eqb c sep then [] :: seg :: segs else (c :: seg) :: segs
      end
  end.

Definition unquote (cs : list ascii) : list ascii :=
  let drop_quote l :=
    match l with
    | c :: t => if Ascii.eqb c "'" then t else l
    | [] => []
    end in
  rev (drop_quote (rev (drop_quote cs))).

Fixpoint meta_lookup (m : Meta) (k : string) : option string :=
  match m with
  | [] => None
  | (k', v) :: m' => if String.eqb k' k then Some v else meta_lookup m' k
  end.

Definition meta_bind (m : Meta) (k v : string) : Meta :=
  (k, v) :: filter (fun kv => negb (String.eqb (fst kv) k)) m.

Definition parse_segment (m : Meta) (seg : list ascii) : Meta :=
  match split_on "=" seg with
  | key :: v :: more =>
      meta_bind m (string_of_list_ascii key)
        (string_of_list_ascii
           (unquote (v ++ flat_map (fun x => "="%char :: x) more)))
  | _ => m
  end.

Definition Meta_New (block : list byte) : Meta :=
  fold_left parse_segment
    (split_on ";" (map ascii_of_byte (strip_padding block))) [].

Definition option_string_eqb (a b : option string) : bool :=
  match a, b with
  | Some x, Some y => String.eqb x y
  | None, None => true
  | _, _ => false
  end.

Definition meta_included (m m' : Meta) : bool :=
  forallb (fun kv => option_string_eqb (meta_lookup m (fst kv))
                       (meta_lookup m' (fst kv))) m.

(** comparison with the previous snapshot; a nil one equals nothing *)
Definition Meta_Equals (m : Meta) (other : option Meta) : bool :=
  match other with
  | None => false
  | Some m' => meta_included m m' && meta_included m' m
  end.

#[export] Instance Meta_MetadataType : MetadataType Meta :=
  { NewMetadata := Meta_New;
    Equals := Meta_Equals }.

(** [http.NewRequest] as far as the examples need it: a URL that starts with
    a colon has no protocol scheme and is rejected; the server side is given
    by [respond]. *)
Definition net_of {R : Type} (respond : Request -> Response R + goerror)
  : Net R :=
  mkNet
    (fun method url =>
       match url with
       | String ":" _ => inr (ErrIO "missing protocol scheme")
       | _ => inl (mkRequest method url [])
       end)
    respond.

(** ** Sample data *)

Definition audio10 : list byte := list_byte_of_string "AAAAAAAAAA".

Definition title_X : list byte := list_byte_of_string "StreamTitle='X';".

Definition title_Y : list byte := list_byte_of_string "StreamTitle='Y';".

(** Example 1 of the specification, as one chunk *)
Definition example1 : list byte := audio10 ++ [x01] ++ title_X ++ audio10.

Definition buffer_of_size (k : nat) : Buffer :=
  mkBuffer (repeat x00 k) (Z.of_nat k).

Definition stream_over (mi : Z) (cb : bool) (body : Chunks)
  : Stream Chunks Meta :=
  mkStream "" "" "" "" 128 cb mi None 0 body.

Definition icy_server (br mi : string) (body : Chunks)
  : Request -> Response Chunks + goerror :=
  fun _ =>
    inl (mkResponse [("Icy-Br"%string, [br]); ("Icy-Metaint"%string, [mi]);
                     ("Icy-Name"%string, ["radio"%string])] body).

(** * Properties *)

(** ** Machine arithmetic *)

Lemma wrap_spec (z : Z) :
  exists k, GoInt.wrap z = z + k * 18446744073709551616
            /\ -9223372036854775808 <= GoInt.wrap z <= 9223372036854775807.
Proof.
  unfold GoInt.wrap.
  change (2 ^ 63) with 9223372036854775808.
  change (2 ^ 64) with 18446744073709551616.
  exists (- ((z + 9223372036854775808) / 18446744073709551616)).
  pose proof (Z.mod_pos_bound (z + 9223372036854775808) 18446744073709551616).
  pose proof (Z.div_mod (z + 9223372036854775808) 18446744073709551616).
  lia.
Qed.

Lemma fits_bounds (z : Z) :
  GoInt.fits z <-> -9223372036854775808 <= z <= 9223372036854775807.
Proof. unfold GoInt.fits, GoInt.min_int, GoInt.max_int. simpl. lia. Qed.

Lemma max_int_value : GoInt.max_int = 9223372036854775807.
Proof. reflexivity. Qed.

(** Replace every wrapped expression by a fresh integer with its defining
    facts, innermost first, so that [lia] can finish. *)
Ltac unwrap_ints :=
  unfold GoInt.add, GoInt.sub, GoInt.mul in *;
  repeat match goal with
    | |- context [GoInt.wrap ?z] =>
        lazymatch z with
        | context [GoInt.wrap _] => fail
        | _ =>
            let k := fresh "k" in
            let E := fresh "E" in
            let B := fresh "B" in
            let w := fresh "w" in
            destruct (wrap_spec z) as (k & E & B);
            set (w := GoInt.wrap z) in *; clearbody w
        end
    | H : context [GoInt.wrap ?z] |- _ =>
        lazymatch z with
        | context [GoInt.wrap _] => fail
        | _ =>
            let k := fresh "k" in
            let E := fresh "E" in
            let B := fresh "B" in
            let w := fresh "w" in
            destruct (wrap_spec z) as (k & E & B);
            set (w := GoInt.wrap z) in *; clearbody w
        end
    end;
  rewrite ?fits_bounds, ?max_int_value in *.

Lemma add_exact (a b : Z) : GoInt.fits (a + b) -> GoInt.add a b = a + b.
Proof. intros F. unwrap_ints. lia. Qed.

Lemma sub_exact (a b : Z) : GoInt.fits (a - b) -> GoInt.sub a b = a - b.
Proof. intros F. unwrap_ints. lia. Qed.

Lemma mul_exact (a b : Z) : GoInt.fits (a * b) -> GoInt.mul a b = a * b.
Proof. intros F. unwrap_ints. lia. Qed.

Lemma byte_to_int_range (b : byte) : 0 <= byte_to_int b <= 255.
Proof.
  unfold byte_to_int. pose proof (Byte.to_N_bounded b). lia.
Qed.

(** ** The buffer *)

Lemma length_store (p : Buffer) (data : list byte) :
  length (store p data) = length (arr p).
Proof.
  unfold store.
  rewrite length_firstn, length_app, length_skipn. lia.
Qed.

(** ** [Read] *)

Section ReadProperties.

Context {R M : Type} `{ReadCloser R} `{MetadataType M}.

(** [Read] is its source read followed by lines 102-127. *)
Lemma Read_unfold (s : Stream R M) (p : Buffer) :
  Read s p =
  let r := source_read s p in
  let mem := after_source s p in
  let s' := set_rc s (snd (rc_Read (rc s) p)) in
  if GoInt.add (pos s) (sr_n r) <=? metaint s then
    mkOut (set_pos s' (GoInt.add (pos s) (sr_n r))) mem []
          (Returned (sr_n r) (sr_err r))
  else
    match slice_expr (buf_slice p) (GoInt.sub (metaint s) (pos s))
            (GoInt.add (GoInt.sub (metaint s) (pos s)) 1) with
    | None => mkOut s' mem [] (Panicked SliceBoundsOutOfRange)
    | Some lenbyte =>
        match index mem lenbyte 0 with
        | None => mkOut s' mem [] (Panicked IndexOutOfRange)
        | Some b =>
            strip_block s' p mem (sr_n r) (sr_err r)
                        (GoInt.sub (metaint s) (pos s))
                        (GoInt.mul (byte_to_int b) 16)
        end
    end.
Proof.
  unfold Read, after_source, source_read.
  destruct (rc_Read (rc s) p) as [r rc']. reflexivity.
Qed.

(** In a call with a boundary inside the bytes read, no addition of line 102
    or 108 overflows. *)
Lemma boundary_exact (s : Stream R M) (p : Buffer) (b : byte) :
  boundary_at s p b ->
  let n := sr_n (source_read s p) in
  GoInt.add (pos s) n = pos s + n /\
  metaint s < pos s + n /\
  GoInt.sub (metaint s) (pos s) = metaint s - pos s /\
  metaint s - pos s + 1 <= n /\
  n <= blen p /\ blen p <= buf_cap p /\
  buf_cap p <= 9223372036854775807.
Proof.
  intros (I & (Bl & Bc) & C & S0 & T & _) n.
  destruct I as [Fp Fm]. unfold reader_contract in C. fold n in C, T.
  assert (E : GoInt.add (pos s) n = pos s + n).
  { unwrap_ints. lia. }
  rewrite E in T. rewrite sub_exact by (unwrap_ints; lia).
  rewrite max_int_value in Bc. repeat split; try lia; assumption.
Qed.

(** With a boundary inside the bytes read, [Read] reaches line 110 with the
    exact offset and block length. *)
Lemma Read_at_boundary (s : Stream R M) (p : Buffer) (b : byte) :
  boundary_at s p b ->
  Read s p =
  strip_block (set_rc s (snd (rc_Read (rc s) p))) p (after_source s p)
              (sr_n (source_read s p)) (sr_err (source_read s p))
              (metaint s - pos s) (byte_to_int b * 16).
Proof.
  intros B.
  destruct (boundary_exact s p b B) as (Ea & T & Es & L1 & L2 & L3 & L4).
  destruct B as (_ & _ & _ & S0 & _ & Nb).
  rewrite Read_unfold. cbv zeta.
  rewrite Ea, Es.
  replace (pos s + sr_n (source_read s p) <=? metaint s) with false
    by (symmetry; apply Z.leb_gt; lia).
  rewrite (add_exact (metaint s - pos s) 1) by (unwrap_ints; lia).
  unfold slice_expr, buf_slice. cbn [cap off len].
  replace ((0 <=? metaint s - pos s) && (metaint s - pos s <=? metaint s - pos s + 1)
           && (metaint s - pos s + 1 <=? buf_cap p)) with true
    by (symmetry; rewrite !andb_true_iff, !Z.leb_le; lia).
  unfold index. cbn [cap off len].
  replace (metaint s - pos s + 1 - (metaint s - pos s)) with 1 by lia.
  cbn [Z.leb Z.ltb Z.compare andb].
  replace (0 + (metaint s - pos s) + 0) with (metaint s - pos s) by lia.
  rewrite Nb.
  rewrite mul_exact
    by (pose proof (byte_to_int_range b); unwrap_ints; lia).
  reflexivity.
Qed.

(** *** Lines 110-118 *)

Lemma extract_frame (s s1 : Stream R M) (p : Buffer) (mem : list byte)
      (ms L : Z) (calls : list M) :
  extract s p mem ms L = Some (s1, calls) ->
  pos s1 = pos s /\ metaint s1 = metaint s /\ rc s1 = rc s /\
  MetadataCallbackFunc s1 = MetadataCallbackFunc s.
Proof.
  unfold extract.
  destruct (0 <? L); [|intros E; inversion E; auto].
  destruct (slice_expr _ _ _); [|discriminate].
  destruct (negb _); intros E; inversion E; auto.
Qed.

Lemma extract_empty (s : Stream R M) (p : Buffer) (mem : list byte) (ms : Z) :
  extract s p mem ms 0 = Some (s, []).
Proof. reflexivity. Qed.

(** a block inside the capacity is decoded and compared *)
Lemma extract_in_cap (s : Stream R M) (p : Buffer) (mem : list byte)
      (ms L : Z) :
  0 <= ms -> 0 < L -> ms + 1 + L <= buf_cap p ->
  buf_cap p <= 9223372036854775807 ->
  let m := NewMetadata (firstn (Z.to_nat L) (skipn (Z.to_nat (ms + 1)) mem)) in
  extract s p mem ms L =
  Some (if Equals m (metadata s) then (s, [])
        else (set_metadata s (Some m),
              if MetadataCallbackFunc s then [m] else [])).
Proof.
  intros Hms HL Hc Hmax m. unfold extract.
  replace (0 <? L) with true by (symmetry; apply Z.ltb_lt; lia).
  rewrite (add_exact ms 1) by (unwrap_ints; lia).
  rewrite (add_exact (ms + 1) L) by (unwrap_ints; lia).
  unfold slice_expr, buf_slice. cbn [cap off len].
  replace ((0 <=? ms + 1) && (ms + 1 <=? ms + 1 + L)
           && (ms + 1 + L <=? buf_cap p)) with true
    by (symmetry; rewrite !andb_true_iff, !Z.leb_le; lia).
  unfold elems. cbn [off len].
  replace (ms + 1 + L - (ms + 1)) with L by lia.
  replace (0 + (ms + 1)) with (ms + 1) by lia.
  fold m. destruct (Equals m (metadata s)); reflexivity.
Qed.

(** a block that ends past the capacity stops the call at line 111 *)
Lemma extract_past_cap (s : Stream R M) (p : Buffer) (mem : list byte)
      (ms L : Z) :
  0 <= ms -> 0 < L <= 4080 -> buf_cap p < ms + 1 + L ->
  buf_cap p <= 9223372036854775807 -> ms + 1 <= buf_cap p ->
  extract s p mem ms L = None.
Proof.
  intros Hms HL Hc Hmax Hle. unfold extract.
  replace (0 <? L) with true by (symmetry; apply Z.ltb_lt; lia).
  rewrite (add_exact ms 1) by (unwrap_ints; lia).
  unfold slice_expr, buf_slice. cbn [cap off len].
  destruct ((0 <=? ms + 1) && (ms + 1 <=? GoInt.add (ms + 1) L)
            && (GoInt.add (ms + 1) L <=? buf_cap p)) eqn:E; [|reflexivity].
  exfalso. rewrite !andb_true_iff, !Z.leb_le in E.
  unwrap_ints. lia.
Qed.

(** *** Lines 121-127 *)

(** the array after [copy(p[ms:], p[ms+1+L:])] *)
Lemma strip_block_returns (s s1 : Stream R M) (p : Buffer) (mem : list byte)
      (n : Z) (err : error) (ms L : Z) (calls : list M) :
  extract s p mem ms L = Some (s1, calls) ->
  0 <= ms -> 0 <= L -> ms + 1 + L <= blen p ->
  blen p <= 9223372036854775807 ->
  GoInt.fits (pos s + n - metaint s - L - 1) ->
  GoInt.fits (n - 1 - L) ->
  strip_block s p mem n err ms L =
  mkOut (set_pos s1 (pos s + n - metaint s - L - 1))
        (firstn (Z.to_nat ms) mem
           ++ firstn (Z.to_nat (blen p - ms - 1 - L))
                (skipn (Z.to_nat (ms + 1 + L)) mem)
           ++ skipn (Z.to_nat (blen p - 1 - L)) mem)
        calls (Returned (n - 1 - L) err).
Proof.
  intros E Hms HL Hb Hmax Fp Fn. unfold strip_block. rewrite E.
  destruct (extract_frame _ _ _ _ _ _ _ E) as (Ep & Em & _ & _).
  rewrite Ep, Em.
  replace (GoInt.sub (GoInt.sub (GoInt.sub (GoInt.add (pos s) n) (metaint s)) L) 1)
    with (pos s + n - metaint s - L - 1) by (unwrap_ints; lia).
  replace (GoInt.sub (GoInt.sub n 1) L) with (n - 1 - L)
    by (unwrap_ints; lia).
  rewrite (add_exact ms 1) by (unwrap_ints; lia).
  rewrite (add_exact (ms + 1) L) by (unwrap_ints; lia).
  unfold slice_from, buf_slice. cbn [cap off len].
  replace ((0 <=? ms) && (ms <=? blen p)) with true
    by (symmetry; rewrite !andb_true_iff, !Z.leb_le; lia).
  replace ((0 <=? ms + 1 + L) && (ms + 1 + L <=? blen p)) with true
    by (symmetry; rewrite !andb_true_iff, !Z.leb_le; lia).
  unfold copy. cbn [cap off len fst].
  replace (Z.min (blen p - ms) (blen p - (ms + 1 + L)))
    with (blen p - ms - 1 - L) by lia.
  replace (0 + ms) with ms by lia.
  replace (0 + (ms + 1 + L)) with (ms + 1 + L) by lia.
  replace (ms + (blen p - ms - 1 - L)) with (blen p - 1 - L) by lia.
  reflexivity.
Qed.

(** the front of a compacted array: what was before the block, then what was
    after it *)
Lemma firstn_compacted (mem src tl : list byte) (a j k : nat) :
  (a <= length mem)%nat -> (j <= k)%nat -> (k <= length src)%nat ->
  firstn (a + j) (firstn a mem ++ firstn k src ++ tl)
  = firstn a mem ++ firstn j src.
Proof.
  intros Ha Hj Hk.
  rewrite firstn_app, length_firstn.
  rewrite firstn_firstn.
  replace (Nat.min (a + j) a) with a by lia.
  replace (a + j - Nat.min a (length mem))%nat with j by lia.
  f_equal.
  rewrite firstn_app, length_firstn, firstn_firstn.
  replace (Nat.min j k) with j by lia.
  replace (j - Nat.min k (length src))%nat with 0%nat by lia.
  simpl. apply app_nil_r.
Qed.

(** whatever happens at lines 121-127, the snapshot and the callback trace are
    those of lines 110-118 *)
Lemma strip_block_effects (s s1 : Stream R M) (p : Buffer) (mem : list byte)
      (n : Z) (err : error) (ms L : Z) (calls : list M) :
  extract s p mem ms L = Some (s1, calls) ->
  metadata (out_stream (strip_block s p mem n err ms L)) = metadata s1 /\
  out_calls (strip_block s p mem n err ms L) = calls.
Proof.
  intros E. unfold strip_block. rewrite E.
  destruct (slice_from (buf_slice p) ms);
    [destruct (slice_from (buf_slice p) _)|]; split; reflexivity.
Qed.

(** [Read] writes [pos], [metadata] and the source, nothing else. *)
Lemma Read_frame (s : Stream R M) (p : Buffer) :
  metaint (out_stream (Read s p)) = metaint s /\
  MetadataCallbackFunc (out_stream (Read s p)) = MetadataCallbackFunc s /\
  Bitrate (out_stream (Read s p)) = Bitrate s.
Proof.
  rewrite Read_unfold. cbv zeta.
  destruct (_ <=? _); [repeat split|].
  destruct (slice_expr _ _ _); [|repeat split].
  destruct (index _ _ _); [|repeat split].
  unfold strip_block.
  destruct (extract _ _ _ _ _) as [[s1 calls]|] eqn:E; [|repeat split].
  assert (F : metaint s1 = metaint s /\
              MetadataCallbackFunc s1 = MetadataCallbackFunc s /\
              Bitrate s1 = Bitrate s).
  { revert E. unfold extract.
    destruct (0 <? _); [|intros E; inversion E; repeat split].
    destruct (slice_expr _ _ _); [|discriminate].
    destruct (negb _); intros E; inversion E; repeat split. }
  destruct (slice_from (buf_slice p) _);
    [destruct (slice_from (buf_slice p) _)|]; exact F.
Qed.

(** A block that lies inside [len(p)]: the call returns, and this is all it
    did. *)
Lemma Read_block_in_len (s : Stream R M) (p : Buffer) (b : byte) :
  boundary_at s p b ->
  let n := sr_n (source_read s p) in
  let ms := metaint s - pos s in
  let L := byte_to_int b * 16 in
  let mem := after_source s p in
  let s' := set_rc s (snd (rc_Read (rc s) p)) in
  ms + 1 + L <= blen p ->
  exists s1 calls,
    extract s' p mem ms L = Some (s1, calls) /\
    Read s p =
    mkOut (set_pos s1 (pos s + n - metaint s - L - 1))
          (firstn (Z.to_nat ms) mem
             ++ firstn (Z.to_nat (blen p - ms - 1 - L))
                  (skipn (Z.to_nat (ms + 1 + L)) mem)
             ++ skipn (Z.to_nat (blen p - 1 - L)) mem)
          calls (Returned (n - 1 - L) (sr_err (source_read s p))).
Proof.
  intros B n ms L mem s' Hin.
  destruct (boundary_exact s p b B) as (_ & T & _ & L1 & L2 & L3 & L4).
  fold n in T, L1, L2. fold ms in L1.
  pose proof (byte_to_int_range b) as Rb.
  assert (Hms : 0 <= ms) by (destruct B as (_ & _ & _ & S0 & _); exact S0).
  assert (Ex : exists s1 calls, extract s' p mem ms L = Some (s1, calls)).
  { destruct (Z.eq_dec L 0) as [Z0|NZ].
    - rewrite Z0. eexists; eexists. apply extract_empty.
    - rewrite (extract_in_cap s' p mem ms L) by lia.
      destruct (Equals _ _); eexists; eexists; reflexivity. }
  destruct Ex as (s1 & calls & E).
  exists s1, calls. split; [exact E|].
  rewrite (Read_at_boundary s p b B). fold n ms L mem s'.
  apply (strip_block_returns s' s1 p mem n _ ms L calls E); try lia.
  - cbn [pos metaint s' set_rc]. apply fits_bounds. subst ms L. lia.
  - apply fits_bounds. subst ms L. lia.
Qed.

(** A declared block that ends past the capacity of [p]: the call panics at
    line 111, before any field is written. *)
Lemma Read_block_past_cap (s : Stream R M) (p : Buffer) (b : byte) :
  boundary_at s p b ->
  0 < byte_to_int b * 16 ->
  buf_cap p < metaint s - pos s + 1 + byte_to_int b * 16 ->
  out_res (Read s p) = Panicked SliceBoundsOutOfRange /\
  pos (out_stream (Read s p)) = pos s /\
  metadata (out_stream (Read s p)) = metadata s /\
  out_calls (Read s p) = [].
Proof.
  intros B Lpos Hc.
  destruct (boundary_exact s p b B) as (_ & _ & _ & L1 & L2 & L3 & L4).
  assert (Hms : 0 <= metaint s - pos s)
    by (destruct B as (_ & _ & _ & S0 & _); exact S0).
  pose proof (byte_to_int_range b) as Rb.
  rewrite (Read_at_boundary s p b B). unfold strip_block.
  rewrite extract_past_cap by lia.
  repeat split.
Qed.

(** A call that starts with [pos > metaint >= 0] and gets past line 102
    panics at line 109: the offset of the length byte is negative. *)
Lemma Read_negative_offset (s : Stream R M) (p : Buffer) :
  ints_ok s ->
  0 <= metaint s < pos s ->
  metaint s < GoInt.add (pos s) (sr_n (source_read s p)) ->
  out_res (Read s p) = Panicked SliceBoundsOutOfRange.
Proof.
  intros [Fp Fm] Hlt T.
  rewrite Read_unfold. cbv zeta.
  replace (GoInt.add (pos s) (sr_n (source_read s p)) <=? metaint s)
    with false by (symmetry; apply Z.leb_gt; exact T).
  rewrite (sub_exact (metaint s) (pos s)) by (unwrap_ints; lia).
  unfold slice_expr.
  replace (0 <=? metaint s - pos s) with false
    by (symmetry; apply Z.leb_gt; lia).
  reflexivity.
Qed.

(** *** The claims about [Read] *)

(** C3.  Pass-through.  When the source delivers [n] bytes and
    [pos + n <= metaint], the caller's array is exactly what the source left
    in it, the count and the error are those of the source, [pos] grows by
    exactly [n], and neither the snapshot nor the callback is touched. *)
Theorem Read_pass_through (s : Stream R M) (p : Buffer) :
  ints_ok s ->
  reader_contract p (source_read s p) ->
  pos s + sr_n (source_read s p) <= metaint s ->
  out_arr (Read s p) = after_source s p /\
  out_res (Read s p)
  = Returned (sr_n (source_read s p)) (sr_err (source_read s p)) /\
  pos (out_stream (Read s p)) = pos s + sr_n (source_read s p) /\
  metadata (out_stream (Read s p)) = metadata s /\
  out_calls (Read s p) = [].
Proof.
  intros [Fp Fm] [C0 _] Hle.
  rewrite Read_unfold. cbv zeta.
  assert (E : GoInt.add (pos s) (sr_n (source_read s p))
              = pos s + sr_n (source_read s p)).
  { apply add_exact. unwrap_ints. lia. }
  rewrite E.
  replace (pos s + sr_n (source_read s p) <=? metaint s) with true
    by (symmetry; apply Z.leb_le; exact Hle).
  repeat split.
Qed.

(** C4.  Boundary processing.  When a boundary falls inside the [n] bytes
    read, at [metadataStart = metaint - pos] with length byte [b], and the
    block of [blockLen = b * 16] bytes lies within those [n] bytes, the call
    returns [n - 1 - blockLen], the new [pos] is
    [(pos + n) - metaint - blockLen - 1], and the bytes returned are the ones
    before [metadataStart] followed by the ones from
    [metadataStart + 1 + blockLen] up to [n], moved down to [metadataStart]. *)
Theorem Read_strips_block (s : Stream R M) (p : Buffer) (b : byte) :
  boundary_at s p b ->
  let n := sr_n (source_read s p) in
  let metadataStart := metaint s - pos s in
  let blockLen := byte_to_int b * 16 in
  let mem := after_source s p in
  metadataStart + 1 + blockLen <= n ->
  out_res (Read s p)
  = Returned (n - 1 - blockLen) (sr_err (source_read s p)) /\
  pos (out_stream (Read s p)) = (pos s + n) - metaint s - blockLen - 1 /\
  firstn (Z.to_nat (n - 1 - blockLen)) (out_arr (Read s p))
  = firstn (Z.to_nat metadataStart) mem
      ++ firstn (Z.to_nat (n - (metadataStart + 1 + blockLen)))
           (skipn (Z.to_nat (metadataStart + 1 + blockLen)) mem).
Proof.
  intros B n ms L mem Hin.
  destruct (boundary_exact s p b B) as (_ & T & _ & L1 & L2 & L3 & L4).
  fold n in T, L1, L2. fold ms in L1.
  pose proof (byte_to_int_range b) as Rb.
  assert (Hms : 0 <= ms) by (destruct B as (_ & _ & _ & S0 & _); exact S0).
  destruct (Read_block_in_len s p b B) as (s1 & calls & E & Eq);
    [fold ms L; lia|].
  fold n ms L mem in Eq. rewrite Eq. cbn [out_res out_stream out_arr pos set_pos].
  split; [reflexivity|]. split; [lia|].
  replace (Z.to_nat (n - 1 - L))
    with (Z.to_nat ms + Z.to_nat (n - (ms + 1 + L)))%nat by lia.
  apply firstn_compacted.
  - unfold mem, after_source. rewrite length_store.
    unfold buf_cap in L3. lia.
  - lia.
  - rewrite length_skipn. unfold mem, after_source. rewrite length_store.
    unfold buf_cap in L3. lia.
Qed.

(** C5.  Change detection.  In a call that decodes a block of positive length
    into the snapshot [m]: when [m] equals [lastMetadata], neither the
    snapshot nor the callback is touched; when it differs, [lastMetadata]
    becomes [m] and the callback, when set, is invoked once, with [m], inside
    the call.  Hence, over two consecutive decoding calls with a callback
    set, the first of which brings a change, an equal second block gives one
    invocation in all and a differing one gives two, each with its own
    snapshot. *)
Theorem Read_change_detection :
  (forall (s : Stream R M) (p : Buffer) (m : M),
      decodes s p m ->
      if Equals m (metadata s)
      then metadata (out_stream (Read s p)) = metadata s
           /\ out_calls (Read s p) = []
      else metadata (out_stream (Read s p)) = Some m
           /\ out_calls (Read s p)
              = if MetadataCallbackFunc s then [m] else [])
  /\
  (forall (s : Stream R M) (p1 p2 : Buffer) (m1 m2 : M),
      MetadataCallbackFunc s = true ->
      decodes s p1 m1 ->
      Equals m1 (metadata s) = false ->
      decodes (out_stream (Read s p1)) p2 m2 ->
      out_calls (Read s p1) ++ out_calls (Read (out_stream (Read s p1)) p2)
      = if Equals m2 (Some m1) then [m1] else [m1; m2]).
Proof.
  assert (One : forall (s : Stream R M) (p : Buffer) (m : M),
      decodes s p m ->
      if Equals m (metadata s)
      then metadata (out_stream (Read s p)) = metadata s
           /\ out_calls (Read s p) = []
      else metadata (out_stream (Read s p)) = Some m
           /\ out_calls (Read s p)
              = if MetadataCallbackFunc s then [m] else []).
  { intros s p m (b & B & Lpos & Lcap & Em).
    destruct (boundary_exact s p b B) as (_ & _ & _ & _ & _ & _ & L4).
    assert (Hms : 0 <= metaint s - pos s)
      by (destruct B as (_ & _ & _ & S0 & _); exact S0).
    rewrite (Read_at_boundary s p b B).
    pose proof (extract_in_cap (set_rc s (snd (rc_Read (rc s) p))) p
                  (after_source s p) (metaint s - pos s)
                  (byte_to_int b * 16) Hms Lpos Lcap L4) as E.
    cbv zeta in E. rewrite <- Em in E.
    cbn [metadata MetadataCallbackFunc set_rc] in E.
    destruct (Equals m (metadata s));
      destruct (strip_block_effects _ _ p (after_source s p)
                  (sr_n (source_read s p)) (sr_err (source_read s p))
                  _ _ _ E) as [E1 E2];
      rewrite E1, E2; split; reflexivity. }
  split; [exact One|].
  intros s p1 p2 m1 m2 Cb D1 Ne D2.
  pose proof (One s p1 m1 D1) as O1. rewrite Ne, Cb in O1.
  destruct O1 as [Md1 Cl1].
  pose proof (One _ p2 m2 D2) as O2. rewrite Md1 in O2.
  destruct (Read_frame s p1) as (_ & Cb1 & _). rewrite Cb1, Cb in O2.
  rewrite Cl1.
  destruct (Equals m2 (Some m1)); destruct O2 as [_ Cl2]; rewrite Cl2;
    reflexivity.
Qed.

(** C6.  Empty block.  When a boundary falls inside the bytes read and the
    length byte there is 0, the call returns [n - 1]: the bytes returned are
    those read without the length byte; the snapshot is unchanged and the
    callback is not invoked. *)
Theorem Read_empty_block (s : Stream R M) (p : Buffer) (b : byte) :
  boundary_at s p b ->
  byte_to_int b = 0 ->
  let n := sr_n (source_read s p) in
  let metadataStart := metaint s - pos s in
  let mem := after_source s p in
  out_res (Read s p) = Returned (n - 1) (sr_err (source_read s p)) /\
  firstn (Z.to_nat (n - 1)) (out_arr (Read s p))
  = firstn (Z.to_nat metadataStart) mem
      ++ firstn (Z.to_nat (n - (metadataStart + 1)))
           (skipn (Z.to_nat (metadataStart + 1)) mem) /\
  metadata (out_stream (Read s p)) = metadata s /\
  out_calls (Read s p) = [] /\
  pos (out_stream (Read s p)) = (pos s + n) - metaint s - 1.
Proof.
  intros B Z0 n ms mem.
  destruct (boundary_exact s p b B) as (_ & T & _ & L1 & L2 & L3 & L4).
  fold n in T, L1, L2. fold ms in L1.
  assert (Hms : 0 <= ms) by (destruct B as (_ & _ & _ & S0 & _); exact S0).
  destruct (Read_block_in_len s p b B) as (s1 & calls & E & Eq);
    [fold ms; lia|].
  fold n ms mem in Eq, E. rewrite Z0 in Eq, E. cbn [Z.mul] in Eq, E.
  rewrite extract_empty in E. inversion E; subst s1 calls. clear E.
  rewrite Eq. cbn [out_res out_stream out_arr out_calls pos metadata set_pos set_rc].
  replace (n - 1 - 0) with (n - 1) by lia.
  split; [reflexivity|]. split; [|repeat split; lia].
  replace (ms + 1 + 0) with (ms + 1) by lia.
  replace (Z.to_nat (n - 1))
    with (Z.to_nat ms + Z.to_nat (n - (ms + 1)))%nat by lia.
  apply firstn_compacted.
  - unfold mem, after_source. rewrite length_store.
    unfold buf_cap in L3. lia.
  - lia.
  - rewrite length_skipn. unfold mem, after_source. rewrite length_store.
    unfold buf_cap in L3. lia.
Qed.

(** C7.  Error propagation.  Whenever [Read] returns, in the pass-through
    branch or after boundary processing, the error it returns is the error of
    the source read of that same call. *)
Theorem Read_error_verbatim (s : Stream R M) (p : Buffer) (n : Z) (e : error) :
  out_res (Read s p) = Returned n e ->
  e = sr_err (source_read s p).
Proof.
  rewrite Read_unfold. cbv zeta.
  destruct (_ <=? _); [intros E; inversion E; reflexivity|].
  destruct (slice_expr _ _ _); [|discriminate].
  destruct (index _ _ _); [|discriminate].
  unfold strip_block.
  destruct (extract _ _ _ _ _) as [[s1 calls]|]; [|discriminate].
  destruct (slice_from (buf_slice p) _);
    [destruct (slice_from (buf_slice p) _)|]; try discriminate.
  intros E; inversion E; reflexivity.
Qed.

(** The position stays in range when the call passes through, or when it
    meets one whole block and at most [metaint] audio bytes follow it. *)
Lemma Read_pos_in_range_one_block (s : Stream R M) (p : Buffer) (b : byte) :
  boundary_at s p b ->
  let n := sr_n (source_read s p) in
  let rest := n - (metaint s - pos s + 1 + byte_to_int b * 16) in
  0 <= rest <= metaint s ->
  0 <= pos (out_stream (Read s p)) <= metaint (out_stream (Read s p)).
Proof.
  intros B n rest Hr.
  destruct (boundary_exact s p b B) as (_ & T & _ & L1 & L2 & _).
  destruct (Read_block_in_len s p b B) as (s1 & calls & E & Eq);
    [subst rest n; lia|].
  destruct (extract_frame _ _ _ _ _ _ _ E) as (_ & Em & _).
  rewrite Eq. cbn [out_stream pos metaint set_pos]. rewrite Em.
  cbn [metaint set_rc]. subst rest n. lia.
Qed.

End ReadProperties.

(** ** [strconv.Atoi] and the headers *)

Lemma parse_uint_non_digit (ds : list ascii) :
  forallb (fun c => match digit c with Some _ => true | None => false end) ds
  = false ->
  forall n, exists e, parse_uint ds n = inr e.
Proof.
  induction ds as [|c ds IH]; cbn [forallb parse_uint]; [discriminate|].
  intros Hf n. destruct (digit c) as [d|]; [|eexists; reflexivity].
  cbn [andb] in Hf.
  destruct (max_uint64 <? 10 * n + d); [eexists; reflexivity|].
  apply IH, Hf.
Qed.

Lemma parse_uint_nonneg (ds : list ascii) :
  forall n u, 0 <= n -> parse_uint ds n = inl u -> 0 <= u.
Proof.
  induction ds as [|c ds IH]; cbn [parse_uint]; intros n u Hn E.
  - inversion E; subst; exact Hn.
  - unfold digit in E.
    destruct ((48 <=? Z.of_N (N_of_ascii c)) && (Z.of_N (N_of_ascii c) <=? 57))
      eqn:D; [|discriminate].
    apply andb_true_iff in D. rewrite !Z.leb_le in D.
    cbv iota in E.
    destruct (max_uint64 <? _); [discriminate|].
    eapply IH; [|exact E]. lia.
Qed.

(** a text that is no decimal numeral is refused *)
Lemma Atoi_not_numeric (s : string) :
  numeric s = false -> exists e, Atoi s = inr e.
Proof.
  unfold numeric, Atoi.
  destruct (split_sign (list_ascii_of_string s)) as [neg ds]. cbn [snd].
  destruct ds as [|c ds]; [intros _; eexists; reflexivity|].
  cbn [length Nat.eqb negb andb]. intros Hf.
  destruct (parse_uint_non_digit (c :: ds) Hf 0) as [e E]. rewrite E.
  eexists; reflexivity.
Qed.

(** what [Atoi] accepts is a numeral and its value is an [int] *)
Lemma Atoi_accepts (s : string) (v : Z) :
  Atoi s = inl v -> numeric s = true /\ GoInt.fits v.
Proof.
  unfold numeric, Atoi.
  destruct (split_sign (list_ascii_of_string s)) as [neg ds]. cbn [snd].
  destruct ds as [|c ds]; [discriminate|].
  cbn [length Nat.eqb negb andb].
  destruct (forallb _ (c :: ds)) eqn:Hf.
  - destruct (parse_uint (c :: ds) 0) as [un|e] eqn:E; [|discriminate].
    pose proof (parse_uint_nonneg _ _ _ (Z.le_refl 0) E) as Hu.
    change (2 ^ 63) with 9223372036854775808.
    destruct neg.
    + destruct (9223372036854775808 <? un) eqn:C; [discriminate|].
      apply Z.ltb_ge in C. intros Ev; inversion Ev; subst.
      split; [reflexivity|]. apply fits_bounds. lia.
    + destruct (9223372036854775808 <=? un) eqn:C; [discriminate|].
      apply Z.leb_gt in C. intros Ev; inversion Ev; subst.
      split; [reflexivity|]. apply fits_bounds. lia.
  - destruct (parse_uint_non_digit (c :: ds) Hf 0) as [e E]. rewrite E.
    discriminate.
Qed.

Lemma Header_Get_absent (h : Header) (key : string) :
  header_absent h key -> Header_Get h key = EmptyString.
Proof. unfold header_absent, Header_Get. intros E. rewrite E. reflexivity. Qed.

(** ** [Open] *)

Section OpenProperties.

Context {R M : Type}.

(** [Open] after a request that was built and answered. *)
Lemma Open_answered (net : Net R) (url : string) (req : Request)
      (resp : Response R) :
  http_NewRequest net "GET" url = inl req ->
  client_Do net (icy_request req) = inl resp ->
  some_header_without_value (resp_Header resp) = false ->
  @Open R M net url =
  match Atoi (Header_Get (resp_Header resp) "icy-br") with
  | inr err => OpenFailed (Errorf "cannot parse bitrate: " err)
  | inl bitrate =>
      match Atoi (Header_Get (resp_Header resp) "icy-metaint") with
      | inr err => OpenFailed (Errorf "cannot parse metaint: " err)
      | inl mi =>
          Opened
            (mkStream
               (Header_Get (resp_Header resp) "icy-name")
               (Header_Get (resp_Header resp) "icy-genre")
               (Header_Get (resp_Header resp) "icy-description")
               (Header_Get (resp_Header resp) "icy-url")
               bitrate false mi None 0 (Body resp))
      end
  end.
Proof.
  intros Eq Ed Eh. unfold Open. rewrite Eq, Ed, Eh. reflexivity.
Qed.

(** a stream comes only out of an answered request whose two numeric headers
    parse *)
Lemma Open_opened (net : Net R) (url : string) (s : Stream R M) :
  Open net url = Opened s ->
  exists req resp,
    http_NewRequest net "GET" url = inl req /\
    client_Do net (icy_request req) = inl resp /\
    Atoi (Header_Get (resp_Header resp) "icy-br") = inl (Bitrate s) /\
    Atoi (Header_Get (resp_Header resp) "icy-metaint") = inl (metaint s) /\
    pos s = 0 /\ metadata s = None.
Proof.
  unfold Open.
  destruct (http_NewRequest net "GET" url) as [req|e] eqn:Eq; [|discriminate].
  destruct (client_Do net (icy_request req)) as [resp|e] eqn:Ed;
    [|discriminate].
  destruct (some_header_without_value _); [discriminate|].
  destruct (Atoi (Header_Get (resp_Header resp) "icy-br")) as [br|e] eqn:Eb;
    [|discriminate].
  destruct (Atoi (Header_Get (resp_Header resp) "icy-metaint")) as [mi|e]
    eqn:Em; [|discriminate].
  intros E; inversion E; subst. cbn.
  exists req, resp. repeat split; assumption.
Qed.

(** a request that could not be built leaves a nil pointer, used at line 54 *)
Lemma Open_nil_request (net : Net R) (url : string) (e : goerror) :
  http_NewRequest net "GET" url = inr e ->
  @Open R M net url = OpenPanicked NilDereference.
Proof. intros E. unfold Open. rewrite E. reflexivity. Qed.

(** C8.  Required headers.  For a response of the server, when [icy-br] or
    [icy-metaint] is absent or is no numeral, [Open] returns an error and no
    stream; when both parse as integers, [Open] returns a stream whose
    [Bitrate] and [metaint] are the parsed values. *)
Theorem Open_required_headers (net : Net R) (url : string) (req : Request)
        (resp : Response R) :
  http_NewRequest net "GET" url = inl req ->
  client_Do net (icy_request req) = inl resp ->
  some_header_without_value (resp_Header resp) = false ->
  let h := resp_Header resp in
  (header_absent h "icy-br" \/ numeric (Header_Get h "icy-br") = false \/
   header_absent h "icy-metaint" \/ numeric (Header_Get h "icy-metaint") = false
   -> exists err, @Open R M net url = OpenFailed err)
  /\
  (forall bitrate mi,
      Atoi (Header_Get h "icy-br") = inl bitrate ->
      Atoi (Header_Get h "icy-metaint") = inl mi ->
      exists s, @Open R M net url = Opened s
                /\ Bitrate s = bitrate /\ metaint s = mi).
Proof.
  intros Eq Ed Eh h. rewrite (Open_answered net url req resp Eq Ed Eh).
  fold h. split.
  - intros Bad.
    assert (Br : numeric (Header_Get h "icy-br") = false
                 \/ numeric (Header_Get h "icy-metaint") = false).
    { destruct Bad as [A|[N|[A|N]]].
      - left. rewrite (Header_Get_absent _ _ A). reflexivity.
      - left. exact N.
      - right. rewrite (Header_Get_absent _ _ A). reflexivity.
      - right. exact N. }
    destruct Br as [N|N]; destruct (Atoi_not_numeric _ N) as [e E].
    + rewrite E. eexists; reflexivity.
    + rewrite E. destruct (Atoi (Header_Get h "icy-br"));
        eexists; reflexivity.
  - intros bitrate mi Eb Em. rewrite Eb, Em.
    eexists. repeat split.
Qed.

End OpenProperties.

Section Lifetime.

Context {R M : Type} `{ReadCloser R} `{MetadataType M}.

Lemma apply_op_metaint (s : Stream R M) (o : op) :
  metaint (apply_op s o) = metaint s.
Proof.
  destruct o as [p| |f]; cbn [apply_op].
  - apply Read_frame.
  - unfold Close. destruct (rc_Close (rc s)). reflexivity.
  - reflexivity.
Qed.

Lemma run_metaint (ops : list op) :
  forall s : Stream R M, metaint (run ops s) = metaint s.
Proof.
  unfold run. induction ops as [|o ops IH]; intros s; simpl; [reflexivity|].
  rewrite IH. apply apply_op_metaint.
Qed.

(** C9, amended.  For every stream that [Open] constructs, [metaint] is the
    integer that [Atoi] read from the [icy-metaint] header, any Go [int],
    zero and negative ones included, and no sequence of [Read] and [Close]
    calls and callback assignments changes it. *)
Theorem Open_metaint_fixed (net : Net R) (url : string) (s : Stream R M) :
  Open net url = Opened s ->
  (exists req resp,
      http_NewRequest net "GET" url = inl req /\
      client_Do net (icy_request req) = inl resp /\
      Atoi (Header_Get (resp_Header resp) "icy-metaint") = inl (metaint s)) /\
  GoInt.fits (metaint s) /\
  forall ops, metaint (run ops s) = metaint s.
Proof.
  intros E.
  destruct (Open_opened net url s E) as (req & resp & Eq & Ed & _ & Em & _).
  split; [exists req, resp; auto|].
  split; [apply (Atoi_accepts _ _ Em)|].
  intros ops. apply run_metaint.
Qed.

End Lifetime.

(** * Worked examples *)

(** closed goals over the sample data are settled by evaluation *)
Ltac by_evaluation :=
  vm_compute;
  repeat match goal with |- _ /\ _ => split end;
  first [reflexivity | discriminate].

Lemma Read_pass_through_witness :
  let s := stream_over 10 true [list_byte_of_string "AAAA"] in
  let p := buffer_of_size 16 in
  pos s + sr_n (source_read s p) <= metaint s /\
  out_res (Read s p) = Returned 4 None /\
  pos (out_stream (Read s p)) = 4.
Proof.
  intros s p.
  assert (Hle : pos s + sr_n (source_read s p) <= metaint s)
    by by_evaluation.
  destruct (Read_pass_through s p) as (_ & Hr & Hp & _).
  - by_evaluation.
  - by_evaluation.
  - exact Hle.
  - split; [exact Hle|]. split; [exact Hr | exact Hp].
Defined.

(** Example 1 of the specification: 10 audio bytes, the length byte 1, the
    16 bytes of [StreamTitle='X';], 10 audio bytes, read at once *)
Lemma Read_strips_block_witness :
  let s := stream_over 10 true [example1] in
  let p := buffer_of_size 64 in
  boundary_at s p x01 /\
  out_res (Read s p) = Returned 20 None /\
  pos (out_stream (Read s p)) = 10 /\
  firstn 20 (out_arr (Read s p)) = audio10 ++ audio10.
Proof.
  intros s p.
  assert (B : boundary_at s p x01) by by_evaluation.
  destruct (Read_strips_block s p x01 B) as (Hr & Hp & Ha).
  - by_evaluation.
  - split; [exact B|]. split; [exact Hr|]. split; [exact Hp | exact Ha].
Defined.

(** Example 2 of the specification, and its variant with a new title: the
    second cycle repeats the block, or brings another one *)
Lemma Read_change_detection_witness :
  let p := buffer_of_size 64 in
  let same := stream_over 10 true [example1; [x01] ++ title_X ++ audio10] in
  let other := stream_over 10 true [example1; [x01] ++ title_Y ++ audio10] in
  let X := [("StreamTitle"%string, "X"%string)] in
  let Y := [("StreamTitle"%string, "Y"%string)] in
  out_calls (Read same p) ++ out_calls (Read (out_stream (Read same p)) p)
  = [X] /\
  out_calls (Read other p) ++ out_calls (Read (out_stream (Read other p)) p)
  = [X; Y].
Proof.
  intros p same other X Y.
  assert (D1 : decodes same p X) by (exists x01; by_evaluation).
  assert (D2 : decodes (out_stream (Read same p)) p X)
    by (exists x01; by_evaluation).
  assert (D3 : decodes other p X) by (exists x01; by_evaluation).
  assert (D4 : decodes (out_stream (Read other p)) p Y)
    by (exists x01; by_evaluation).
  split.
  - exact (proj2 Read_change_detection same p p X X eq_refl D1 eq_refl D2).
  - exact (proj2 Read_change_detection other p p X Y eq_refl D3 eq_refl D4).
Defined.

Lemma Read_empty_block_witness :
  let s := stream_over 10 true [audio10 ++ [x00] ++ audio10] in
  let p := buffer_of_size 64 in
  boundary_at s p x00 /\
  out_res (Read s p) = Returned 20 None /\
  firstn 20 (out_arr (Read s p)) = audio10 ++ audio10 /\
  metadata (out_stream (Read s p)) = None /\
  out_calls (Read s p) = [].
Proof.
  intros s p.
  assert (B : boundary_at s p x00) by by_evaluation.
  destruct (Read_empty_block s p x00 B) as (Hr & Ha & Hm & Hc & _).
  - reflexivity.
  - split; [exact B|]. split; [exact Hr|]. split; [exact Ha|].
    split; [exact Hm | exact Hc].
Defined.

(** the end of the stream, reported by the source, reaches the caller *)
Lemma Read_error_verbatim_witness :
  let s := stream_over 10 true [] in
  let p := buffer_of_size 64 in
  out_res (Read s p) = Returned 0 (Some EOF) /\
  Some EOF = sr_err (source_read s p).
Proof.
  intros s p.
  assert (E : out_res (Read s p) = Returned 0 (Some EOF)) by reflexivity.
  split; [exact E|].
  exact (Read_error_verbatim s p 0 (Some EOF) E).
Defined.

(** C1.  The length byte announces 16 bytes of metadata, the caller's buffer
    of 16 bytes holds 5 of them: line 111 slices past the capacity and the
    call panics. *)
Theorem Read_split_block_panics :
  let s := stream_over 10 true [example1] in
  let p := buffer_of_size 16 in
  reader_contract p (source_read s p) /\
  sr_n (source_read s p) = 16 /\
  out_res (Read s p) = Panicked SliceBoundsOutOfRange.
Proof. by_evaluation. Qed.

(** C2.  With [metaint = 4], a read of 10 bytes holds two boundaries; one is
    processed, [pos] ends above [metaint], and the next call panics on a
    negative offset.  With the block of Example 1 cut after 16 bytes in a
    larger buffer, [pos] and the returned count end below zero. *)
Theorem Read_breaks_pos_range :
  let s := stream_over 4 true [list_byte_of_string "AAAA" ++ [x00]
                                 ++ list_byte_of_string "AAAAA"] in
  let p := buffer_of_size 16 in
  let s' := stream_over 10 true [firstn 16 example1] in
  let p' := buffer_of_size 64 in
  (0 <= pos s <= metaint s /\
   out_res (Read s p) = Returned 9 None /\
   pos (out_stream (Read s p)) = 5 /\
   metaint (out_stream (Read s p)) = 4 /\
   out_res (Read (out_stream (Read s p)) p)
   = Panicked SliceBoundsOutOfRange) /\
  (0 <= pos s' <= metaint s' /\
   sr_n (source_read s' p') = 16 /\
   out_res (Read s' p') = Returned (-1) None /\
   pos (out_stream (Read s' p')) = -11).
Proof. by_evaluation. Qed.

Lemma Open_required_headers_witness :
  let net := net_of (icy_server "128" "8192" [example1]) in
  let bad := net_of (icy_server "128" "often" [example1]) in
  (exists s : Stream Chunks Meta,
      Open net "http://radio.example/live" = Opened s
      /\ Bitrate s = 128 /\ metaint s = 8192) /\
  (exists err,
      @Open Chunks Meta bad "http://radio.example/live" = OpenFailed err).
Proof.
  intros net bad. split.
  - refine (proj2 (Open_required_headers net "http://radio.example/live"
                     (mkRequest "GET" "http://radio.example/live" [])
                     (mkResponse _ [example1]) eq_refl eq_refl eq_refl)
                  128 8192 eq_refl eq_refl).
  - refine (proj1 (Open_required_headers bad "http://radio.example/live"
                     (mkRequest "GET" "http://radio.example/live" [])
                     (mkResponse _ [example1]) eq_refl eq_refl eq_refl) _).
    right. right. right. reflexivity.
Defined.

(** C9.  A server that declares [icy-metaint: 0] gets a stream: [metaint] is
    not positive. *)
Lemma Open_metaint_not_positive :
  exists s : Stream Chunks Meta,
    Open (net_of (icy_server "128" "0" [example1]))
         "http://radio.example/live" = Opened s
    /\ ~ 0 < metaint s.
Proof.
  eexists. split; [reflexivity|]. by_evaluation.
Qed.

Lemma Open_metaint_fixed_witness :
  let net := net_of (icy_server "128" "10" [example1]) in
  let s : Stream Chunks Meta :=
    mkStream "radio" "" "" "" 128 false 10 None 0 [example1] in
  Open net "http://radio.example/live" = Opened s /\
  metaint (run [OpSetCallback true; OpRead (buffer_of_size 64); OpClose;
                OpRead (buffer_of_size 16)] s) = 10.
Proof.
  intros net s.
  assert (E : Open net "http://radio.example/live" = Opened s)
    by reflexivity.
  split; [exact E|].
  exact (proj2 (proj2 (Open_metaint_fixed net "http://radio.example/live" s E))
               [OpSetCallback true; OpRead (buffer_of_size 64); OpClose;
                OpRead (buffer_of_size 16)]).
Defined.

(** C10.  A URL without a protocol scheme is refused by [http.NewRequest];
    [Open] drops that error and panics on the nil request. *)
Theorem Open_malformed_url_panics :
  http_NewRequest (net_of (icy_server "128" "8192" [example1])) "GET" ":"
  = inr (ErrIO "missing protocol scheme") /\
  @Open Chunks Meta (net_of (icy_server "128" "8192" [example1])) ":"
  = OpenPanicked NilDereference.
Proof. split; reflexivity. Qed.

(** * Further properties of [Read] *)

Section ReadEdges.

Context {R M : Type} `{ReadCloser R} `{MetadataType M}.

(** lines 121-124 when the block ends past [len(p)]: [pos] is written, then
    the second operand of [copy] is out of range *)
Lemma strip_block_late_panic (s s1 : Stream R M) (p : Buffer)
      (mem : list byte) (n : Z) (err : error) (ms L : Z) (calls : list M) :
  extract s p mem ms L = Some (s1, calls) ->
  0 <= ms -> ms + 1 <= blen p -> 0 <= L <= 4080 ->
  blen p < ms + 1 + L ->
  blen p <= 9223372036854775807 ->
  GoInt.fits (pos s + n - metaint s - L - 1) ->
  strip_block s p mem n err ms L =
  mkOut (set_pos s1 (pos s + n - metaint s - L - 1)) mem calls
        (Panicked SliceBoundsOutOfRange).
Proof.
  intros E Hms Hm1 HL Hb Hmax Fp. unfold strip_block. rewrite E.
  destruct (extract_frame _ _ _ _ _ _ _ E) as (Ep & Em & _ & _).
  rewrite Ep, Em.
  replace (GoInt.sub (GoInt.sub (GoInt.sub (GoInt.add (pos s) n) (metaint s)) L) 1)
    with (pos s + n - metaint s - L - 1) by (unwrap_ints; lia).
  rewrite (add_exact ms 1) by (unwrap_ints; lia).
  unfold slice_from, buf_slice. cbn [cap off len].
  replace ((0 <=? ms) && (ms <=? blen p)) with true
    by (symmetry; rewrite !andb_true_iff, !Z.leb_le; lia).
  destruct ((0 <=? GoInt.add (ms + 1) L) && (GoInt.add (ms + 1) L <=? blen p))
           eqn:C; [|reflexivity].
  exfalso. rewrite !andb_true_iff, !Z.leb_le in C. unwrap_ints. lia.
Qed.

(** the block fits the capacity of [p] but not its length *)
Lemma Read_past_len_in_cap (s : Stream R M) (p : Buffer) (b : byte) :
  boundary_at s p b ->
  let n := sr_n (source_read s p) in
  let metadataStart := metaint s - pos s in
  let blockLen := byte_to_int b * 16 in
  let m := NewMetadata
             (firstn (Z.to_nat blockLen)
                (skipn (Z.to_nat (metadataStart + 1)) (after_source s p))) in
  0 < blockLen ->
  blen p < metadataStart + 1 + blockLen <= buf_cap p ->
  out_res (Read s p) = Panicked SliceBoundsOutOfRange /\
  pos (out_stream (Read s p)) = (pos s + n) - metaint s - blockLen - 1 /\
  out_arr (Read s p) = after_source s p /\
  if Equals m (metadata s)
  then metadata (out_stream (Read s p)) = metadata s
       /\ out_calls (Read s p) = []
  else metadata (out_stream (Read s p)) = Some m
       /\ out_calls (Read s p) = if MetadataCallbackFunc s then [m] else [].
Proof.
  intros B n ms L m Lpos [Hlen Hcap].
  destruct (boundary_exact s p b B) as (_ & T & _ & L1 & L2 & L3 & L4).
  fold n in T, L1, L2. fold ms in L1.
  pose proof (byte_to_int_range b) as Rb.
  assert (Hms : 0 <= ms) by (destruct B as (_ & _ & _ & S0 & _); exact S0).
  rewrite (Read_at_boundary s p b B). fold n ms L.
  pose proof (extract_in_cap (set_rc s (snd (rc_Read (rc s) p))) p
                (after_source s p) ms L Hms Lpos Hcap L4) as E.
  cbv zeta in E. fold m in E.
  cbn [metadata MetadataCallbackFunc set_rc] in E.
  destruct (Equals m (metadata s));
    rewrite (strip_block_late_panic _ _ p (after_source s p) n _ ms L _ E)
      by (try apply fits_bounds; cbn [pos metaint set_rc]; subst ms L; lia);
    repeat split.
Qed.

(** X4.  A block that fits the capacity of [p] but not its length: the
    snapshot is compared and replaced, the callback invoked and [pos]
    written as in a good call, and only then the call panics, at line 124. *)
Theorem Read_late_panic (s : Stream R M) (p : Buffer) (b : byte) :
  boundary_at s p b ->
  let n := sr_n (source_read s p) in
  let metadataStart := metaint s - pos s in
  let blockLen := byte_to_int b * 16 in
  let m := NewMetadata
             (firstn (Z.to_nat blockLen)
                (skipn (Z.to_nat (metadataStart + 1)) (after_source s p))) in
  0 < blockLen ->
  blen p < metadataStart + 1 + blockLen <= buf_cap p ->
  out_res (Read s p) = Panicked SliceBoundsOutOfRange /\
  pos (out_stream (Read s p)) = (pos s + n) - metaint s - blockLen - 1 /\
  out_arr (Read s p) = after_source s p /\
  if Equals m (metadata s)
  then metadata (out_stream (Read s p)) = metadata s
       /\ out_calls (Read s p) = []
  else metadata (out_stream (Read s p)) = Some m
       /\ out_calls (Read s p) = if MetadataCallbackFunc s then [m] else [].
Proof.
  intros B n ms L m Lpos Hb. apply (Read_past_len_in_cap s p b B Lpos Hb).
Qed.

(** X3.  With a boundary inside the bytes read, the call panics exactly when
    the declared block ends past [len(p)]. *)
Theorem Read_panics_iff (s : Stream R M) (p : Buffer) (b : byte) :
  boundary_at s p b ->
  (exists why, out_res (Read s p) = Panicked why)
  <-> blen p < metaint s - pos s + 1 + byte_to_int b * 16.
Proof.
  intros B.
  destruct (boundary_exact s p b B) as (_ & T & _ & L1 & L2 & L3 & L4).
  pose proof (byte_to_int_range b) as Rb.
  split.
  - intros [why P].
    destruct (Z_lt_le_dec (blen p) (metaint s - pos s + 1 + byte_to_int b * 16))
      as [Lt|Le]; [exact Lt|exfalso].
    destruct (Read_block_in_len s p b B Le) as (s1 & calls & _ & Eq).
    rewrite Eq in P. discriminate.
  - intros Lt. exists SliceBoundsOutOfRange.
    destruct (Z_lt_le_dec (buf_cap p)
                (metaint s - pos s + 1 + byte_to_int b * 16)) as [Pc|Ic].
    + apply (Read_block_past_cap s p b B); lia.
    + apply (Read_past_len_in_cap s p b B); lia.
Qed.

(** X5.  A block that lies inside [len(p)] but not inside the [n] bytes read:
    the call returns, with fewer bytes than the audio before the boundary,
    and leaves [pos] negative. *)
Theorem Read_short_block (s : Stream R M) (p : Buffer) (b : byte) :
  boundary_at s p b ->
  let n := sr_n (source_read s p) in
  let metadataStart := metaint s - pos s in
  let blockLen := byte_to_int b * 16 in
  n < metadataStart + 1 + blockLen <= blen p ->
  out_res (Read s p)
  = Returned (n - 1 - blockLen) (sr_err (source_read s p)) /\
  n - 1 - blockLen < metadataStart /\
  pos (out_stream (Read s p)) = (pos s + n) - metaint s - blockLen - 1 /\
  pos (out_stream (Read s p)) < 0.
Proof.
  intros B n ms L [Hn Hlen].
  destruct (Read_block_in_len s p b B Hlen) as (s1 & calls & _ & Eq).
  fold n ms L in Eq. rewrite Eq.
  cbn [out_res out_stream pos set_pos].
  subst ms. repeat split; lia.
Qed.

(** X6.  In every call, however it ends: either the snapshot is the one the
    call found and the callback is not invoked, or the snapshot is a new one
    that differs from the old one, and the callback, when set, is invoked
    exactly once, with that snapshot. *)
Theorem Read_callback_discipline (s : Stream R M) (p : Buffer) :
  (metadata (out_stream (Read s p)) = metadata s
   /\ out_calls (Read s p) = [])
  \/
  (exists m,
      Equals m (metadata s) = false /\
      metadata (out_stream (Read s p)) = Some m /\
      out_calls (Read s p) = if MetadataCallbackFunc s then [m] else []).
Proof.
  rewrite Read_unfold. cbv zeta.
  destruct (_ <=? _); [left; split; reflexivity|].
  destruct (slice_expr _ _ _); [|left; split; reflexivity].
  destruct (index _ _ _); [|left; split; reflexivity].
  match goal with
  | |- context [strip_block ?s' ?p' ?mem ?n ?e ?ms ?L] =>
      destruct (extract s' p' mem ms L) as [[s1 calls]|] eqn:E;
      [ destruct (strip_block_effects s' s1 p' mem n e ms L calls E)
          as [E1 E2]; rewrite E1, E2
      | unfold strip_block; rewrite E; left; split; reflexivity ]
  end.
  revert E. unfold extract.
  destruct (0 <? _); [|intros E; inversion E; left; split; reflexivity].
  destruct (slice_expr _ _ _) as [blk|]; [|discriminate].
  cbn [metadata MetadataCallbackFunc set_rc].
  destruct (Equals _ (metadata s)) eqn:Q; cbn [negb];
    intros E; inversion E; subst.
  - left; split; reflexivity.
  - right. eexists. split; [exact Q|]. split; reflexivity.
Qed.

End ReadEdges.

(** ** Lists and the reference demultiplexer *)

Lemma firstn_plus {A : Type} (l : list A) (a m : nat) :
  firstn (a + m) l = firstn a l ++ firstn m (skipn a l).
Proof.
  revert l. induction a as [|a IH]; intros l; [reflexivity|].
  destruct l as [|x l]; cbn [Nat.add firstn skipn app].
  - rewrite firstn_nil. reflexivity.
  - rewrite IH. reflexivity.
Qed.

Lemma skipn_at {A : Type} (l : list A) (a : nat) (x : A) :
  nth_error l a = Some x -> skipn a l = x :: skipn (S a) l.
Proof.
  revert l. induction a as [|a IH]; intros [|y l]; cbn [nth_error];
    try discriminate.
  - intros E; inversion E; reflexivity.
  - intros E. cbn [skipn]. apply IH in E. exact E.
Qed.

(** the bytes read, cut at a boundary: audio, length byte, block, rest *)
Lemma firstn_frame (l : list byte) (a L r : nat) (b : byte) :
  nth_error l a = Some b ->
  firstn (a + 1 + L + r) l
  = firstn a l ++ b :: firstn L (skipn (a + 1) l)
      ++ firstn r (skipn (a + 1 + L) l).
Proof.
  intros Nb.
  replace (a + 1 + L + r)%nat with (a + (1 + (L + r)))%nat by lia.
  rewrite firstn_plus. f_equal.
  rewrite (skipn_at l a b Nb). cbn [Nat.add firstn]. f_equal.
  rewrite firstn_plus, skipn_skipn.
  replace (S a) with (a + 1)%nat by lia.
  replace (L + (a + 1))%nat with (a + 1 + L)%nat by lia.
  reflexivity.
Qed.

Lemma wire_demux_app (mi : Z) (w1 w2 : list byte) :
  forall ph,
    wire_demux mi ph (w1 ++ w2)
    = (fst (wire_demux mi ph w1)
         ++ fst (wire_demux mi (snd (wire_demux mi ph w1)) w2),
       snd (wire_demux mi (snd (wire_demux mi ph w1)) w2)).
Proof.
  induction w1 as [|b w1 IH]; intros ph.
  - cbn [app wire_demux fst snd]. destruct (wire_demux mi ph w2); reflexivity.
  - cbn [app wire_demux].
    destruct (wire_step mi ph b) as [o ph1]. rewrite IH.
    destruct (wire_demux mi ph1 w1) as [o1 ph2]. cbn [fst snd].
    destruct (wire_demux mi ph2 w2) as [o2 ph3]. cbn [fst snd].
    rewrite app_assoc. reflexivity.
Qed.

(** audio short of the boundary passes unchanged *)
Lemma wire_demux_audio (mi : Z) (w : list byte) :
  forall k,
    k + Z.of_nat (length w) <= mi ->
    wire_demux mi (InAudio k) w = (w, InAudio (k + Z.of_nat (length w))).
Proof.
  induction w as [|b w IH]; intros k Hk.
  - cbn [wire_demux length Z.of_nat]. rewrite Z.add_0_r. reflexivity.
  - cbn [length] in Hk. rewrite Nat2Z.inj_succ in Hk.
    cbn [wire_demux wire_step].
    replace (k <? mi) with true by (symmetry; apply Z.ltb_lt; lia).
    rewrite IH by lia. cbn [length app]. rewrite Nat2Z.inj_succ.
    f_equal. f_equal. lia.
Qed.

(** a whole block is dropped *)
Lemma wire_demux_block (mi : Z) (w : list byte) :
  forall r,
    Z.of_nat (length w) = r -> 1 <= r ->
    wire_demux mi (InBlock r) w = ([], InAudio 0).
Proof.
  induction w as [|b w IH]; intros r Hr H1.
  - cbn [length Z.of_nat] in Hr. lia.
  - cbn [length] in Hr. rewrite Nat2Z.inj_succ in Hr.
    cbn [wire_demux wire_step].
    destruct (r <=? 1) eqn:C.
    + apply Z.leb_le in C. assert (w = []) by (destruct w; [reflexivity|cbn [length] in Hr; lia]).
      subst w. reflexivity.
    + apply Z.leb_gt in C. rewrite (IH (r - 1)) by lia. reflexivity.
Qed.

(** one unit of the wire format, entered [k] bytes into its audio, followed by
    the start of the next one *)
Lemma wire_demux_frame (mi k : Z) (A B Rr : list byte) (b : byte) :
  k + Z.of_nat (length A) = mi ->
  Z.of_nat (length B) = byte_to_int b * 16 ->
  Z.of_nat (length Rr) <= mi ->
  wire_demux mi (InAudio k) (A ++ b :: B ++ Rr)
  = (A ++ Rr, InAudio (Z.of_nat (length Rr))).
Proof.
  intros HA HB HR.
  rewrite wire_demux_app, (wire_demux_audio mi A k) by lia.
  cbn [fst snd]. rewrite HA.
  cbn [wire_demux wire_step].
  replace (mi <? mi) with false by (symmetry; apply Z.ltb_ge; lia).
  pose proof (byte_to_int_range b) as Rb.
  destruct (byte_to_int b =? 0) eqn:Z0.
  - apply Z.eqb_eq in Z0. rewrite Z0 in HB.
    assert (B = []) by (destruct B; [reflexivity|cbn [length] in HB; lia]).
    subst B. cbn [app].
    rewrite (wire_demux_audio mi Rr 0) by lia. reflexivity.
  - apply Z.eqb_neq in Z0.
    rewrite wire_demux_app, (wire_demux_block mi B _ HB) by lia.
    cbn [fst snd]. rewrite (wire_demux_audio mi Rr 0) by lia.
    reflexivity.
Qed.

(** ** Calls that hold one block at most *)

Section ReadRuns.

Context {R M : Type} `{ReadCloser R} `{MetadataType M}.

(** One such call, in full: it returns, the count and the position stay in
    range, and what it hands to the caller is what the reference
    demultiplexer makes of the bytes delivered. *)
Lemma Read_one_block_step (s : Stream R M) (p : Buffer) :
  ints_ok s ->
  0 <= pos s <= metaint s ->
  one_block_at_most s p ->
  exists n',
    out_res (Read s p) = Returned n' (sr_err (source_read s p)) /\
    0 <= n' <= sr_n (source_read s p) /\
    ints_ok (out_stream (Read s p)) /\
    0 <= pos (out_stream (Read s p)) <= metaint s /\
    metaint (out_stream (Read s p)) = metaint s /\
    wire_demux (metaint s) (InAudio (pos s)) (delivered s p)
    = (returned_bytes (Read s p), InAudio (pos (out_stream (Read s p)))).
Proof.
  intros I Inv (Bok & C & Shape).
  assert (Lmem : length (after_source s p) = length (arr p))
    by (unfold after_source; apply length_store).
  destruct Shape as [Pass|(b & T & Nb & Rest)].
  - (* no boundary *)
    destruct I as [Fp Fm]. destruct C as [C0 C1].
    destruct Bok as [[_ Bl] Bc]. unfold buf_cap in Bl.
    exists (sr_n (source_read s p)).
    assert (E : GoInt.add (pos s) (sr_n (source_read s p))
                = pos s + sr_n (source_read s p))
      by (apply add_exact; unwrap_ints; lia).
    unfold returned_bytes. rewrite Read_unfold. cbv zeta. rewrite E.
    replace (pos s + sr_n (source_read s p) <=? metaint s) with true
      by (symmetry; apply Z.leb_le; exact Pass).
    cbn [out_res out_stream out_arr pos metaint set_pos set_rc].
    split; [reflexivity|]. split; [lia|].
    split; [split; cbn [pos metaint set_pos set_rc];
            [unwrap_ints; lia | exact Fm]|].
    split; [lia|]. split; [reflexivity|].
    unfold delivered. rewrite wire_demux_audio.
    + rewrite length_firstn, Lmem. f_equal. f_equal. lia.
    + rewrite length_firstn, Lmem. lia.
  - (* one whole block *)
    assert (B : boundary_at s p b).
    { repeat split; try assumption; try apply I; try apply Bok; try apply C.
      lia. }
    destruct (boundary_exact s p b B) as (_ & T' & _ & L1 & L2 & L3 & L4).
    pose proof (byte_to_int_range b) as Rb.
    destruct (Read_block_in_len s p b B) as (s1 & calls & E & Eq); [lia|].
    destruct (extract_frame _ _ _ _ _ _ _ E) as (_ & Em & _).
    cbn [metaint set_rc] in Em.
    set (n := sr_n (source_read s p)) in *.
    set (ms := metaint s - pos s) in *.
    set (L := byte_to_int b * 16) in *.
    set (mem := after_source s p) in *.
    exists (n - 1 - L).
    unfold returned_bytes. rewrite Eq.
    cbn [out_res out_stream out_arr pos metaint set_pos].
    split; [reflexivity|]. split; [lia|].
    split; [split; cbn [pos metaint set_pos];
            [unwrap_ints; lia | rewrite Em; apply I]|].
    split; [lia|]. split; [exact Em|].
    unfold buf_cap in L3.
    replace (Z.to_nat (n - 1 - L))
      with (Z.to_nat ms + Z.to_nat (n - (ms + 1 + L)))%nat by lia.
    rewrite firstn_compacted;
      [| lia | lia | rewrite length_skipn; lia].
    unfold delivered. fold n mem.
    replace (Z.to_nat n)
      with (Z.to_nat ms + 1 + Z.to_nat L + Z.to_nat (n - (ms + 1 + L)))%nat
      by lia.
    rewrite (firstn_frame mem _ _ _ b Nb).
    replace (Z.to_nat ms + 1)%nat with (Z.to_nat (ms + 1)) by lia.
    replace (Z.to_nat (ms + 1) + Z.to_nat L)%nat
      with (Z.to_nat (ms + 1 + L)) by lia.
    rewrite wire_demux_frame.
    + rewrite length_firstn, length_skipn. f_equal. f_equal. lia.
    + rewrite length_firstn. lia.
    + rewrite length_firstn, length_skipn. lia.
    + rewrite length_firstn, length_skipn. lia.
Qed.

(** X1.  A call that starts with [0 <= pos <= metaint] and whose chunk holds
    no boundary, or one whole block followed by at most [metaint] audio
    bytes, returns without a panic, with the source's error and a count
    between 0 and [n], and leaves [0 <= pos <= metaint]. *)
Theorem Read_one_block_ok (s : Stream R M) (p : Buffer) :
  ints_ok s ->
  0 <= pos s <= metaint s ->
  one_block_at_most s p ->
  exists n',
    out_res (Read s p) = Returned n' (sr_err (source_read s p)) /\
    0 <= n' <= sr_n (source_read s p) /\
    0 <= pos (out_stream (Read s p)) <= metaint (out_stream (Read s p)).
Proof.
  intros I Inv Ok.
  destruct (Read_one_block_step s p I Inv Ok)
    as (n' & Er & Hn & _ & Hp & Em & _).
  exists n'. rewrite Em. auto.
Qed.

(** X2.  Extraction.  Over any sequence of calls that each hold one block at
    most, started with [0 <= pos <= metaint]: the bytes returned, call after
    call, are the bytes delivered by the source with every length byte and
    every metadata block taken out, as the reference demultiplexer does it;
    the final [pos] is the count of audio bytes since the last block. *)
Theorem Read_run_extracts (ps : list Buffer) :
  forall s : Stream R M,
    ints_ok s ->
    0 <= pos s <= metaint s ->
    each_one_block_at_most s ps ->
    wire_demux (metaint s) (InAudio (pos s)) (wire_of s ps)
    = (audio_of s ps, InAudio (pos (run (map OpRead ps) s)))
    /\ 0 <= pos (run (map OpRead ps) s) <= metaint s.
Proof.
  induction ps as [|p ps IH]; intros s I Inv Ok.
  - cbn. split; [reflexivity | exact Inv].
  - destruct Ok as [Ok1 Oks].
    destruct (Read_one_block_step s p I Inv Ok1)
      as (n' & _ & _ & I' & Hp & Em & Dm).
    assert (Inv' : 0 <= pos (out_stream (Read s p))
                   <= metaint (out_stream (Read s p)))
      by (rewrite Em; exact Hp).
    destruct (IH _ I' Inv' Oks) as [Dr Pr]. rewrite Em in Dr, Pr.
    cbn [wire_of audio_of map].
    change (run (OpRead p :: map OpRead ps) s)
      with (run (map OpRead ps) (out_stream (Read s p))).
    split; [|exact Pr].
    rewrite wire_demux_app, Dm. cbn [fst snd]. rewrite Dr. reflexivity.
Qed.

End ReadRuns.

(** ** What [Read], [Close] and the caller leave alone *)

Section Frames.

Context {R M : Type} `{ReadCloser R} `{MetadataType M}.

Lemma extract_descriptive (s s1 : Stream R M) (p : Buffer) (mem : list byte)
      (ms L : Z) (calls : list M) :
  extract s p mem ms L = Some (s1, calls) ->
  Name s1 = Name s /\ Genre s1 = Genre s /\
  Description s1 = Description s /\ URL s1 = URL s.
Proof.
  unfold extract.
  destruct (0 <? L); [|intros E; inversion E; auto].
  destruct (slice_expr _ _ _); [|discriminate].
  destruct (negb _); intros E; inversion E; auto.
Qed.

Lemma Read_descriptive (s : Stream R M) (p : Buffer) :
  Name (out_stream (Read s p)) = Name s /\
  Genre (out_stream (Read s p)) = Genre s /\
  Description (out_stream (Read s p)) = Description s /\
  URL (out_stream (Read s p)) = URL s.
Proof.
  rewrite Read_unfold. cbv zeta.
  destruct (_ <=? _); [repeat split|].
  destruct (slice_expr _ _ _); [|repeat split].
  destruct (index _ _ _); [|repeat split].
  unfold strip_block.
  destruct (extract _ _ _ _ _) as [[s1 calls]|] eqn:E; [|repeat split].
  pose proof (extract_descriptive _ _ _ _ _ _ _ E) as F.
  destruct (slice_from (buf_slice p) _);
    [destruct (slice_from (buf_slice p) _)|]; exact F.
Qed.

(** X7.  The fields [Open] filled from the response headers, [Name],
    [Genre], [Description], [URL] and [Bitrate], keep their values over every
    sequence of [Read] and [Close] calls and callback assignments, panicking
    calls included. *)
Theorem run_keeps_description (ops : list op) :
  forall s : Stream R M,
    Name (run ops s) = Name s /\
    Genre (run ops s) = Genre s /\
    Description (run ops s) = Description s /\
    URL (run ops s) = URL s /\
    Bitrate (run ops s) = Bitrate s.
Proof.
  unfold run. induction ops as [|o ops IH]; intros s; cbn [fold_left];
    [repeat split|].
  destruct (IH (apply_op s o)) as (E1 & E2 & E3 & E4 & E5).
  rewrite E1, E2, E3, E4, E5. clear.
  destruct o as [p| |f]; cbn [apply_op].
  - destruct (Read_descriptive s p) as (F1 & F2 & F3 & F4).
    destruct (Read_frame s p) as (_ & _ & F5). auto.
  - unfold Close. destruct (rc_Close (rc s)). repeat split.
  - repeat split.
Qed.

Lemma Read_source (s : Stream R M) (p : Buffer) :
  rc (out_stream (Read s p)) = snd (rc_Read (rc s) p).
Proof.
  rewrite Read_unfold. cbv zeta.
  destruct (_ <=? _); [reflexivity|].
  destruct (slice_expr _ _ _); [|reflexivity].
  destruct (index _ _ _); [|reflexivity].
  unfold strip_block.
  destruct (extract _ _ _ _ _) as [[s1 calls]|] eqn:E; [|reflexivity].
  destruct (extract_frame _ _ _ _ _ _ _ E) as (_ & _ & Er & _).
  destruct (slice_from (buf_slice p) _);
    [destruct (slice_from (buf_slice p) _)|]; exact Er.
Qed.

(** X13.  The stream puts nothing between the caller and the source: over
    every sequence of calls, each [Read] is one [Read] of the source on the
    caller's buffer and each [Close] one [Close] of the source, in the same
    order, also after a panic, an error or an earlier [Close]; and [Close]
    returns the error of the source's [Close]. *)
Theorem run_source (ops : list op) :
  forall s : Stream R M,
    rc (run ops s) = source_after ops (rc s)
    /\ fst (Close s) = fst (rc_Close (rc s)).
Proof.
  unfold run, source_after.
  induction ops as [|o ops IH]; intros s; cbn [fold_left].
  - split; [reflexivity|].
    unfold Close. destruct (rc_Close (rc s)). reflexivity.
  - split; [|unfold Close; destruct (rc_Close (rc s)); reflexivity].
    rewrite (proj1 (IH (apply_op s o))). f_equal.
    destruct o as [p| |f]; cbn [apply_op].
    + apply Read_source.
    + unfold Close. destruct (rc_Close (rc s)). reflexivity.
    + reflexivity.
Qed.

(** X8.  A stream that [Open] built from a negative [icy-metaint] cannot be
    read: the first [Read] panics at line 109, whatever the source
    delivers, and leaves the stream as it found it. *)
Theorem Open_negative_metaint_Read_panics (net : Net R) (url : string)
        (s : Stream R M) (p : Buffer) :
  Open net url = Opened s ->
  metaint s < 0 ->
  buf_ok p ->
  reader_contract p (source_read s p) ->
  out_res (Read s p) = Panicked SliceBoundsOutOfRange /\
  pos (out_stream (Read s p)) = 0 /\
  metadata (out_stream (Read s p)) = None /\
  out_calls (Read s p) = [].
Proof.
  intros Eo Neg [[_ Bl] Bc] [C0 C1].
  destruct (Open_opened net url s Eo) as (req & resp & _ & _ & _ & Em & Ep & Emd).
  pose proof (proj2 (Atoi_accepts _ _ Em)) as Fm.
  rewrite Read_unfold. cbv zeta. rewrite Ep.
  rewrite (add_exact 0) by (unwrap_ints; lia).
  replace (0 + sr_n (source_read s p) <=? metaint s) with false
    by (symmetry; apply Z.leb_gt; lia).
  rewrite (sub_exact (metaint s) 0) by (unwrap_ints; lia).
  unfold slice_expr.
  replace (0 <=? metaint s - 0) with false
    by (symmetry; apply Z.leb_gt; lia).
  cbn [andb out_res out_stream out_calls pos metadata set_rc].
  rewrite Ep, Emd. repeat split.
Qed.

(** X11.  When [pos + n] does not fit a Go [int], the sum of line 102 wraps
    to a negative number: the call takes the pass-through branch although a
    boundary lies inside the bytes read, and stores the wrapped sum in
    [pos]. *)
Theorem Read_overflow_passes_through (s : Stream R M) (p : Buffer) :
  ints_ok s ->
  0 <= pos s <= metaint s ->
  0 <= sr_n (source_read s p) <= GoInt.max_int ->
  GoInt.max_int < pos s + sr_n (source_read s p) ->
  out_res (Read s p)
  = Returned (sr_n (source_read s p)) (sr_err (source_read s p)) /\
  out_arr (Read s p) = after_source s p /\
  pos (out_stream (Read s p)) = pos s + sr_n (source_read s p) - 2 ^ 64 /\
  pos (out_stream (Read s p)) < 0.
Proof.
  intros [Fp Fm] Inv Hn Ov.
  change (2 ^ 64) with 18446744073709551616.
  assert (E : GoInt.add (pos s) (sr_n (source_read s p))
              = pos s + sr_n (source_read s p) - 18446744073709551616)
    by (unwrap_ints; lia).
  rewrite Read_unfold. cbv zeta. rewrite E.
  replace (pos s + sr_n (source_read s p) - 18446744073709551616 <=? metaint s)
    with true by (symmetry; apply Z.leb_le; unwrap_ints; lia).
  cbn [out_res out_arr out_stream pos set_pos].
  repeat split. unwrap_ints. lia.
Qed.

End Frames.

(** * Further properties of [Open] *)

(** ** Numerals *)

Lemma digit_range (c : ascii) (d : Z) : digit c = Some d -> 0 <= d <= 9.
Proof.
  unfold digit.
  destruct ((48 <=? Z.of_N (N_of_ascii c)) && (Z.of_N (N_of_ascii c) <=? 57))
    eqn:D; [|discriminate].
  apply andb_true_iff in D. rewrite !Z.leb_le in D.
  intros E; inversion E; lia.
Qed.

Lemma decimal_value_grows (ds : list ascii) :
  forall n, 0 <= n -> n <= decimal_value ds n.
Proof.
  unfold decimal_value.
  induction ds as [|c ds IH]; intros n Hn; cbn [fold_left]; [lia|].
  assert (0 <= match digit c with Some d => d | None => 0 end <= 9) as Hd.
  { destruct (digit c) as [d|] eqn:D; [apply (digit_range c d D)|lia]. }
  etransitivity; [|apply IH; lia]. lia.
Qed.

(** on digits, the loop of [ParseUint] computes the decimal value or stops
    with a range error when that value is past [uint64] *)
Lemma parse_uint_digits (ds : list ascii) :
  forall n,
    0 <= n <= max_uint64 ->
    forallb (fun c => match digit c with Some _ => true | None => false end)
            ds = true ->
    parse_uint ds n
    = if max_uint64 <? decimal_value ds n then inr ErrRange
      else inl (decimal_value ds n).
Proof.
  induction ds as [|c ds IH]; intros n Hn Hd.
  - unfold decimal_value. cbn [parse_uint fold_left].
    replace (max_uint64 <? n) with false
      by (symmetry; apply Z.ltb_ge; lia).
    reflexivity.
  - cbn [forallb] in Hd. apply andb_true_iff in Hd. destruct Hd as [Hc Hd].
    unfold decimal_value. cbn [parse_uint fold_left].
    destruct (digit c) as [d|] eqn:D; [|discriminate].
    pose proof (digit_range c d D) as Rd.
    destruct (max_uint64 <? 10 * n + d) eqn:C.
    + apply Z.ltb_lt in C.
      pose proof (decimal_value_grows ds (10 * n + d) ltac:(lia)) as G.
      unfold decimal_value in G.
      replace (max_uint64 <? _) with true
        by (symmetry; apply Z.ltb_lt; lia).
      reflexivity.
    + apply Z.ltb_ge in C. apply IH; [lia | exact Hd].
Qed.

(** [Atoi] on a numeral: its value when that is an [int], a range error
    otherwise *)
Lemma Atoi_numeral (s : string) :
  numeric s = true ->
  (GoInt.fits (numeral_value s) -> Atoi s = inl (numeral_value s)) /\
  (~ GoInt.fits (numeral_value s) -> Atoi s = inr (ErrAtoi s ErrRange)).
Proof.
  unfold numeric, Atoi, numeral_value.
  destruct (split_sign (list_ascii_of_string s)) as [neg ds]. cbn [snd].
  destruct ds as [|c ds]; [discriminate|].
  cbn [length Nat.eqb negb andb]. intros Hd.
  rewrite (parse_uint_digits (c :: ds) 0) by (try exact Hd; cbv; split; discriminate).
  pose proof (decimal_value_grows (c :: ds) 0 (Z.le_refl 0)) as G.
  rewrite !fits_bounds.
  change max_uint64 with 18446744073709551615.
  change (2 ^ 63) with 9223372036854775808.
  set (v := decimal_value (c :: ds) 0) in *.
  destruct (18446744073709551615 <? v) eqn:C1;
    [apply Z.ltb_lt in C1 | apply Z.ltb_ge in C1].
  - destruct neg; split; intros F; try reflexivity; exfalso; lia.
  - destruct neg.
    + destruct (9223372036854775808 <? v) eqn:C2;
        [apply Z.ltb_lt in C2 | apply Z.ltb_ge in C2];
        split; intros F; try reflexivity; exfalso; lia.
    + destruct (9223372036854775808 <=? v) eqn:C2;
        [apply Z.leb_le in C2 | apply Z.leb_gt in C2];
        split; intros F; try reflexivity; exfalso; lia.
Qed.

Lemma Atoi_inl_iff (s : string) (v : Z) :
  Atoi s = inl v
  <-> numeric s = true /\ v = numeral_value s /\ GoInt.fits v.
Proof.
  split.
  - intros E. destruct (Atoi_accepts s v E) as [N F].
    split; [exact N|]. split; [|exact F].
    destruct (Atoi_numeral s N) as [Ok Bad].
    destruct (Z_le_dec GoInt.min_int (numeral_value s)) as [A|A];
      [destruct (Z_le_dec (numeral_value s) GoInt.max_int) as [B|B]|].
    + rewrite (Ok (conj A B)) in E. inversion E; reflexivity.
    + rewrite Bad in E by (unfold GoInt.fits; lia). discriminate.
    + rewrite Bad in E by (unfold GoInt.fits; lia). discriminate.
  - intros (N & Ev & F). subst v. apply (Atoi_numeral s N), F.
Qed.

(** ** The request and the response *)


Section OpenFurther.

Context {R M : Type}.


(** X10.  [Open] returns a stream exactly when the request was built and
    answered and both [icy-br] and [icy-metaint] are decimal numerals, with
    an optional sign, whose values are Go [int]s.  The stream then holds
    these two values, the four descriptive headers (empty when absent), no
    snapshot, no callback, [pos = 0] and the response body. *)
Theorem Open_succeeds_iff (net : Net R) (url : string) (s : Stream R M) :
  Open net url = Opened s
  <->
  exists req resp,
    http_NewRequest net "GET" url = inl req /\
    client_Do net (icy_request req) = inl resp /\
    some_header_without_value (resp_Header resp) = false /\
    numeric (Header_Get (resp_Header resp) "icy-br") = true /\
    GoInt.fits (numeral_value (Header_Get (resp_Header resp) "icy-br")) /\
    numeric (Header_Get (resp_Header resp) "icy-metaint") = true /\
    GoInt.fits (numeral_value (Header_Get (resp_Header resp) "icy-metaint")) /\
    s = mkStream
          (Header_Get (resp_Header resp) "icy-name")
          (Header_Get (resp_Header resp) "icy-genre")
          (Header_Get (resp_Header resp) "icy-description")
          (Header_Get (resp_Header resp) "icy-url")
          (numeral_value (Header_Get (resp_Header resp) "icy-br"))
          false
          (numeral_value (Header_Get (resp_Header resp) "icy-metaint"))
          None 0 (Body resp).
Proof.
  split.
  - unfold Open.
    destruct (http_NewRequest net "GET" url) as [req|e] eqn:Eq;
      [|discriminate].
    destruct (client_Do net (icy_request req)) as [resp|e] eqn:Ed;
      [|discriminate].
    destruct (some_header_without_value _) eqn:Eh; [discriminate|].
    destruct (Atoi (Header_Get (resp_Header resp) "icy-br")) as [br|e] eqn:Eb;
      [|discriminate].
    destruct (Atoi (Header_Get (resp_Header resp) "icy-metaint")) as [mi|e]
      eqn:Em; [|discriminate].
    apply Atoi_inl_iff in Eb. destruct Eb as (Nb & Vb & Fb).
    apply Atoi_inl_iff in Em. destruct Em as (Nm & Vm & Fm).
    intros E. inversion E. subst br mi.
    exists req, resp.
    split; [reflexivity|]. split; [exact Ed|]. split; [exact Eh|].
    split; [exact Nb|]. split; [exact Fb|].
    split; [exact Nm|]. split; [exact Fm|]. reflexivity.
  - intros (req & resp & Eq & Ed & Eh & Nb & Fb & Nm & Fm & Es).
    rewrite (Open_answered net url req resp Eq Ed Eh).
    rewrite (proj1 (Atoi_numeral _ Nb) Fb), (proj1 (Atoi_numeral _ Nm) Fm).
    subst s. reflexivity.
Qed.

(** X12.  A numeral too large for a Go [int] in a required header is
    refused, not truncated: [Open] fails with the range error of [Atoi]
    under the message of that header, the bitrate first. *)
Theorem Open_refuses_oversized (net : Net R) (url : string) (req : Request)
        (resp : Response R) :
  http_NewRequest net "GET" url = inl req ->
  client_Do net (icy_request req) = inl resp ->
  some_header_without_value (resp_Header resp) = false ->
  let br := Header_Get (resp_Header resp) "icy-br" in
  let mi := Header_Get (resp_Header resp) "icy-metaint" in
  (numeric br = true -> ~ GoInt.fits (numeral_value br) ->
   @Open R M net url
   = OpenFailed (Errorf "cannot parse bitrate: " (ErrAtoi br ErrRange)))
  /\
  (numeric br = true -> GoInt.fits (numeral_value br) ->
   numeric mi = true -> ~ GoInt.fits (numeral_value mi) ->
   @Open R M net url
   = OpenFailed (Errorf "cannot parse metaint: " (ErrAtoi mi ErrRange))).
Proof.
  intros Eq Ed Eh br mi.
  rewrite (Open_answered net url req resp Eq Ed Eh). fold br mi.
  split.
  - intros Nb Fb. rewrite (proj2 (Atoi_numeral _ Nb) Fb). reflexivity.
  - intros Nb Fb Nm Fm.
    rewrite (proj1 (Atoi_numeral _ Nb) Fb), (proj2 (Atoi_numeral _ Nm) Fm).
    reflexivity.
Qed.

End OpenFurther.

(** * Further worked examples *)

(** Example 1 of the specification, read at once *)
Lemma Read_one_block_ok_witness :
  let s := stream_over 10 true [example1] in
  let p := buffer_of_size 64 in
  one_block_at_most s p /\
  exists n',
    out_res (Read s p) = Returned n' (sr_err (source_read s p)) /\
    0 <= n' <= sr_n (source_read s p) /\
    0 <= pos (out_stream (Read s p)) <= metaint (out_stream (Read s p)).
Proof.
  intros s p.
  assert (Ok : one_block_at_most s p).
  { split; [by_evaluation|]. split; [by_evaluation|].
    right. exists x01. by_evaluation. }
  split; [exact Ok|].
  apply (Read_one_block_ok s p); [by_evaluation | by_evaluation | exact Ok].
Defined.

(** two units of the wire format in two chunks, then the end of the stream *)
Lemma Read_run_extracts_witness :
  let s := stream_over 10 true [example1; [x01] ++ title_Y ++ audio10] in
  let ps := [buffer_of_size 64; buffer_of_size 64; buffer_of_size 64] in
  audio_of s ps = audio10 ++ audio10 ++ audio10 /\
  wire_demux (metaint s) (InAudio (pos s)) (wire_of s ps)
  = (audio_of s ps, InAudio (pos (run (map OpRead ps) s))) /\
  0 <= pos (run (map OpRead ps) s) <= metaint s.
Proof.
  intros s ps. split; [reflexivity|].
  apply (Read_run_extracts ps s); [by_evaluation | by_evaluation |].
  split.
  { split; [by_evaluation|]. split; [by_evaluation|].
    right. exists x01. by_evaluation. }
  split.
  { split; [by_evaluation|]. split; [by_evaluation|].
    right. exists x01. by_evaluation. }
  split; [|exact I].
  split; [by_evaluation|]. split; [by_evaluation|].
  left. by_evaluation.
Defined.

(** the split block of a 16-byte buffer *)
Lemma Read_panics_iff_witness :
  let s := stream_over 10 true [example1] in
  let p := buffer_of_size 16 in
  boundary_at s p x01 /\
  exists why, out_res (Read s p) = Panicked why.
Proof.
  intros s p.
  assert (B : boundary_at s p x01) by by_evaluation.
  split; [exact B|].
  apply (proj2 (Read_panics_iff s p x01 B)). by_evaluation.
Defined.

(** a slice of length 16 on an array of 64 bytes *)
Lemma Read_late_panic_witness :
  let s := stream_over 10 true [example1] in
  let p := mkBuffer (repeat x00 64) 16 in
  boundary_at s p x01 /\
  out_res (Read s p) = Panicked SliceBoundsOutOfRange /\
  pos (out_stream (Read s p)) = -11 /\
  metadata (out_stream (Read s p)) = Some [] /\
  out_calls (Read s p) = [[]].
Proof.
  intros s p.
  assert (B : boundary_at s p x01) by by_evaluation.
  destruct (Read_late_panic s p x01 B) as (Hr & Hp & _ & Hm).
  - by_evaluation.
  - by_evaluation.
  - split; [exact B|]. split; [exact Hr|]. split; [exact Hp|]. exact Hm.
Defined.

(** the source stops after 16 bytes, five bytes into the block *)
Lemma Read_short_block_witness :
  let s := stream_over 10 true [firstn 16 example1] in
  let p := buffer_of_size 64 in
  boundary_at s p x01 /\
  out_res (Read s p) = Returned (-1) None /\
  pos (out_stream (Read s p)) = -11.
Proof.
  intros s p.
  assert (B : boundary_at s p x01) by by_evaluation.
  destruct (Read_short_block s p x01 B) as (Hr & _ & Hp & _).
  - by_evaluation.
  - split; [exact B|]. split; [exact Hr | exact Hp].
Defined.

Lemma Open_negative_metaint_Read_panics_witness :
  let net := net_of (icy_server "128" "-1" [example1]) in
  let s : Stream Chunks Meta :=
    mkStream "radio" "" "" "" 128 false (-1) None 0 [example1] in
  let p := buffer_of_size 64 in
  Open net "http://radio.example/live" = Opened s /\
  out_res (Read s p) = Panicked SliceBoundsOutOfRange.
Proof.
  intros net s p.
  assert (E : Open net "http://radio.example/live" = Opened s)
    by reflexivity.
  split; [exact E|].
  apply (Open_negative_metaint_Read_panics net "http://radio.example/live"
           s p E);
    by_evaluation.
Defined.

(** [metaint] at the largest [int] and [pos] five bytes short of it *)
Lemma Read_overflow_passes_through_witness :
  let s : Stream Chunks Meta :=
    mkStream "" "" "" "" 128 true 9223372036854775807 None
             9223372036854775802 [example1] in
  let p := buffer_of_size 16 in
  GoInt.max_int < pos s + sr_n (source_read s p) /\
  out_res (Read s p) = Returned 16 None /\
  pos (out_stream (Read s p)) = -9223372036854775798.
Proof.
  intros s p.
  assert (Ov : GoInt.max_int < pos s + sr_n (source_read s p))
    by by_evaluation.
  destruct (Read_overflow_passes_through s p) as (Hr & _ & Hp & _).
  - by_evaluation.
  - by_evaluation.
  - by_evaluation.
  - exact Ov.
  - split; [exact Ov|]. split; [exact Hr | exact Hp].
Defined.


Lemma Open_refuses_oversized_witness :
  let mi := "99999999999999999999"%string in
  let net := net_of (icy_server "128" mi [example1]) in
  @Open Chunks Meta net "http://radio.example/live"
  = OpenFailed (Errorf "cannot parse metaint: " (ErrAtoi mi ErrRange)).
Proof.
  intros mi net.
  refine (proj2 (Open_refuses_oversized net "http://radio.example/live"
                   (mkRequest "GET" "http://radio.example/live" [])
                   (mkResponse _ [example1]) eq_refl eq_refl eq_refl)
                eq_refl _ eq_refl _).
  - by_evaluation.
  - intros [_ Hi]. vm_compute in Hi. apply Hi. reflexivity.
Defined.
